(** * camerafetch: a camera polling daemon and a timelapse encoder

    A shallow embedding of [main.py] (the polling daemon) and of
    [create-timelapse.py] (the encoder), followed by the properties of the
    specification that were checked against them.

    Conventions.
    - Python [str] values are Rocq strings.  [lower] is exact on Latin-1
      text, which is what HTTP header values are (http.client decodes them
      as ISO-8859-1).
    - Clock readings are integers (ticks of the clock, exact arithmetic).
    - The outside world (HTTP server, file system, clocks, signals, the
      image codec) is an explicit environment: every call that asks the
      world something reads its answer from a record.
    - A raised exception is a value of type [exn]; a computation that may
      raise returns [exn + A].  Logging and I/O are recorded as a list of
      [event]s in program order. *)

From stdpp Require Import gmap strings list fin_maps pretty.
From Stdlib Require Import ZArith Ascii String Lia.

Open Scope string_scope.
Open Scope list_scope.
Open Scope stdpp_scope.
Open Scope Z_scope.

(** ** Python string primitives *)

(** [c.lower()] for one Latin-1 character: A-Z and the accented capitals
    U+00C0..U+00DE (the multiplication sign U+00D7 apart) move up by 32. *)
Definition lower_char (c : ascii) : ascii :=
  let n := N_of_ascii c in
  if ((65 <=? n) && (n <=? 90))%N
     || ((192 <=? n) && (n <=? 222) && negb (n =? 215))%N
  then ascii_of_N (n + 32)
  else c.

(** [s.lower()] *)
Fixpoint lower (s : string) : string :=
  match s with
  | EmptyString => EmptyString
  | String c s' => String (lower_char c) (lower s')
  end.

(** [s.startswith(p)] *)
Definition startswith (s p : string) : bool := String.prefix p s.

(** [s.endswith(suffix)] *)
Fixpoint endswith (s suffix : string) : bool :=
  String.eqb s suffix
  || match s with
     | EmptyString => false
     | String _ s' => endswith s' suffix
     end.

(** [needle in s] *)
Fixpoint str_in (needle s : string) : bool :=
  String.prefix needle s
  || match s with
     | EmptyString => false
     | String _ s' => str_in needle s'
     end.

(** [os.path.join(a, b)] of posixpath. *)
Definition path_join (a b : string) : string :=
  if startswith b "/" then b
  else if String.eqb a "" || endswith a "/" then a +:+ b
  else a +:+ "/" +:+ b.

(** ** Exceptions *)

(** The exception classes that matter to the handlers of [main.py].
    [Timeout], [ConnectionError] and [HTTPError] are the classes of
    [requests.exceptions]; they derive from [RequestException], which
    derives from [OSError].  [OSError] below stands for an [OSError] that
    is not a [RequestException]. *)
Inductive exn_class :=
| Timeout
| ConnectionError
| HTTPError
| OSError
| UnboundLocalError
| OtherException.

Record exn := Raise { exn_cls : exn_class; exn_msg : string }.

(** [isinstance(e, requests.exceptions.Timeout)] *)
Definition is_Timeout (e : exn) : bool :=
  match exn_cls e with Timeout => true | _ => false end.

(** [isinstance(e, requests.exceptions.RequestException)] *)
Definition is_RequestException (e : exn) : bool :=
  match exn_cls e with
  | Timeout | ConnectionError | HTTPError => true
  | _ => false
  end.

(** [isinstance(e, OSError)] *)
Definition is_OSError (e : exn) : bool :=
  match exn_cls e with
  | Timeout | ConnectionError | HTTPError | OSError => true
  | _ => false
  end.

(** ** Events *)

Inductive level := DEBUG | INFO | WARNING | ERROR.

Definition level_no (l : level) : Z :=
  match l with DEBUG => 10 | INFO => 20 | WARNING => 30 | ERROR => 40 end.

Inductive event :=
| Log (lvl : level) (msg : string)          (* a record that reaches the log *)
| HttpGet (u : string) (timeout : Z)        (* requests.get(u, timeout=...) *)
| FileOpen (path : string)                  (* open(path, 'wb') succeeded *)
| FileWrite (path : string) (data : string) (* f.write(data) succeeded *)
| Wait (duration : Z) (woken : bool)        (* shutdown_event.wait(duration) and what it returned *)
| Makedirs (path : string)                  (* os.makedirs(path, exist_ok=True) succeeded *)
| ThreadStart (thread_name : string)
| ThreadJoin (thread_name : string)
| Exit (status : Z).                        (* sys.exit(status) *)

(** [logging.basicConfig(level=logging.INFO, ...)]: records below INFO are
    dropped. *)
Definition logging_level : level := INFO.

Definition logging_log (lvl : level) (msg : string) : list event :=
  if level_no logging_level <=? level_no lvl then [Log lvl msg] else [].

(** ** Configuration of main.py *)

Record camera_config := { name : string; url : string; interval : Z }.

Definition SAVE_DIR : string := "camera_images".

Definition CAMERAS : list camera_config :=
  [ {| name := "Front Door"; url := "https://example.com/FrontDoor.JPG"; interval := 60 |};
    {| name := "Pool"; url := "https://example.com/Pool.jpg"; interval := 30 |} ].

Definition REQUEST_TIMEOUT : Z := 15.

(** ** The shutdown flag: [shutdown_event = threading.Event()] *)

(** A fresh [threading.Event()] is not set. *)
Definition shutdown_event : bool := false.

(** [ev.set()] and [ev.is_set()] on the internal flag.  The program calls
    nothing else on the event but [wait]; [clear] is never called. *)
Definition Event_set (flag : bool) : bool := true.
Definition Event_is_set (flag : bool) : bool := flag.

(** [signal_handler(sig, frame)] *)
Definition signal_handler (sig : Z) (flag : bool) : list event * bool :=
  (logging_log WARNING ("Signal " +:+ pretty sig +:+ " received. Initiating shutdown..."),
   Event_set flag).

(** ** HTTP responses *)

Record response := {
  status_code : Z;
  reason : string;
  content_type : option string;   (* response.headers.get('content-type') *)
  content : string                (* response.content *)
}.

(** [response.raise_for_status()] of the requests library, here returning
    the exception it raises, if any: an [HTTPError] for a 4xx or a 5xx
    status and nothing otherwise (the source says so at the call: "Raise
    an exception for bad status codes (4xx or 5xx)"). *)
Definition raise_for_status (u : string) (r : response) : option exn :=
  let code := status_code r in
  if (400 <=? code) && (code <? 500) then
    Some (Raise HTTPError (pretty code +:+ " Client Error: " +:+ reason r +:+ " for url: " +:+ u))
  else if (500 <=? code) && (code <? 600) then
    Some (Raise HTTPError (pretty code +:+ " Server Error: " +:+ reason r +:+ " for url: " +:+ u))
  else None.

(** [get_file_extension(response)]: the extension and what it logs. *)
Definition get_file_extension (r : response) : list event * string :=
  let default :=
    (logging_log WARNING "Could not determine image type from headers, defaulting to .jpg",
     ".jpg") in
  match content_type r with
  | Some ct =>
      if negb (String.eqb ct "") then
        if str_in "image/jpeg" (lower ct) then ([], ".jpg")
        else if str_in "image/png" (lower ct) then ([], ".png")
        else if str_in "image/gif" (lower ct) then ([], ".gif")
        else if str_in "image/bmp" (lower ct) then ([], ".bmp")
        else default
      else default
  | None => default
  end.

(** ** Wall-clock time *)

Record datetime := {
  year : Z; month : Z; day : Z; hour : Z; minute : Z; second : Z
}.

Definition digit (d : Z) : ascii := ascii_of_N (48 + Z.to_N d).

Definition pad2 (n : Z) : string :=
  String (digit (n / 10 mod 10)) (String (digit (n mod 10)) "").

Definition pad4 (n : Z) : string :=
  String (digit (n / 1000 mod 10)) (String (digit (n / 100 mod 10)) (pad2 n)).

(** One [strftime] directive: [%Y] is the year with century on four
    digits, [%m %d %H %M %S] are two digits each.  Other directives do not
    occur in the program and are copied. *)
Definition directive (dt : datetime) (c : ascii) : string :=
  if Ascii.eqb c "Y" then pad4 (year dt)
  else if Ascii.eqb c "m" then pad2 (month dt)
  else if Ascii.eqb c "d" then pad2 (day dt)
  else if Ascii.eqb c "H" then pad2 (hour dt)
  else if Ascii.eqb c "M" then pad2 (minute dt)
  else if Ascii.eqb c "S" then pad2 (second dt)
  else String "%" (String c "").

(** [dt.strftime(fmt)] *)
Fixpoint strftime (dt : datetime) (fmt : string) : string :=
  match fmt with
  | EmptyString => EmptyString
  | String c rest =>
      if Ascii.eqb c "%" then
        match rest with
        | String d rest' => directive dt d +:+ strftime dt rest'
        | EmptyString => String c EmptyString
        end
      else String c (strftime dt rest)
  end.

(** ** One polling cycle of [fetch_and_save] *)

(** What [open(filepath, 'wb')] followed by [f.write(...)] meets. *)
Inductive save_outcome :=
| SaveOk
| OpenFails (msg : string)     (* open raises OSError: nothing is created *)
| WriteFails (msg : string).   (* the file is opened, then write raises OSError *)

(** What the world answers during one pass through the loop body. *)
Record cycle_env := {
  monotonic_before : Z;           (* time.monotonic() at the top of the body *)
  get_outcome : exn + response;   (* requests.get: an exception or a response *)
  now : datetime;                 (* datetime.datetime.now() *)
  save : save_outcome;
  monotonic_after : Z;            (* time.monotonic() after the try statement *)
  signal_in_cycle : bool;         (* the flag gets set while the body runs *)
  signal_in_wait : bool           (* the flag gets set during the wait *)
}.

(** The [try] suite.  [filepath] is the local variable of that name: it is
    unbound ([None]) until the first assignment and keeps its value from
    one pass to the next.  The result is the events, the local variable
    afterwards and the exception that left the suite, if any. *)
Definition try_suite (cam : camera_config) (e : cycle_env) (filepath : option string)
  : list event * option string * option exn :=
  let cam_dir := path_join SAVE_DIR (name cam) in
  let ev_get :=
    logging_log DEBUG ("[" +:+ name cam +:+ "] Fetching image from " +:+ url cam)
    ++ [HttpGet (url cam) REQUEST_TIMEOUT] in
  match get_outcome e with
  | inl x => (ev_get, filepath, Some x)
  | inr r =>
      match raise_for_status (url cam) r with
      | Some x => (ev_get, filepath, Some x)
      | None =>
          let timestamp := strftime (now e) "%Y%m%d_%H%M%S" in
          let '(ev_ext, extension) := get_file_extension r in
          let filename := name cam +:+ "_" +:+ timestamp +:+ extension in
          let filepath' := path_join cam_dir filename in
          match save e with
          | OpenFails m =>
              (ev_get ++ ev_ext, Some filepath', Some (Raise OSError m))
          | WriteFails m =>
              (ev_get ++ ev_ext ++ [FileOpen filepath'], Some filepath', Some (Raise OSError m))
          | SaveOk =>
              (ev_get ++ ev_ext
                 ++ [FileOpen filepath'; FileWrite filepath' (content r)]
                 ++ logging_log INFO ("[" +:+ name cam +:+ "] Saved image to " +:+ filepath'),
               Some filepath', None)
          end
      end
  end.

(** The [except] clauses, tried in the order of the source.  The third one
    formats [filepath]: reading the local while it is unbound raises
    [UnboundLocalError] inside the handler, which no clause of this [try]
    catches. *)
Definition except_clauses (cam : camera_config) (filepath : option string) (x : exn)
  : exn + list event :=
  if is_Timeout x then
    inr (logging_log ERROR
           ("[" +:+ name cam +:+ "] Timeout error fetching image from " +:+ url cam))
  else if is_RequestException x then
    inr (logging_log ERROR
           ("[" +:+ name cam +:+ "] Error fetching image from " +:+ url cam +:+ ": " +:+ exn_msg x))
  else if is_OSError x then
    match filepath with
    | Some fp =>
        inr (logging_log ERROR
               ("[" +:+ name cam +:+ "] Error saving image to " +:+ fp +:+ ": " +:+ exn_msg x))
    | None =>
        inl (Raise UnboundLocalError "local variable 'filepath' referenced before assignment")
    end
  else
    inr (logging_log ERROR
           ("[" +:+ name cam +:+ "] An unexpected error occurred: " +:+ exn_msg x)).

(** The whole [try ... except] statement of one pass. *)
Definition try_except (cam : camera_config) (e : cycle_env) (filepath : option string)
  : list event * option string * option exn :=
  let '(evs, filepath', raised) := try_suite cam e filepath in
  match raised with
  | None => (evs, filepath', None)
  | Some x =>
      match except_clauses cam filepath' x with
      | inr hevs => (evs ++ hevs, filepath', None)
      | inl x' => (evs, filepath', Some x')
      end
  end.

(** [max(0, next_fetch_time - time.monotonic())] *)
Definition sleep_duration (next_fetch_time : Z) (e : cycle_env) : Z :=
  Z.max 0 (next_fetch_time - monotonic_after e).

(** ** The polling loop *)

Inductive loop_outcome :=
| Stopped                              (* the [while] condition was false *)
| Crashed (x : exn)                    (* an exception left the function *)
| Polling (filepath : option string).  (* still in the loop when the run ends *)

(** [while not shutdown_event.is_set(): ...] run against the cycles the
    world provides.  [flag] is the shared event, [filepath] the local. *)
Fixpoint poll (cam : camera_config) (flag : bool) (filepath : option string)
         (envs : list cycle_env) : list event * loop_outcome :=
  if Event_is_set flag then ([], Stopped)
  else
    match envs with
    | [] => ([], Polling filepath)
    | e :: rest =>
        let next_fetch_time := monotonic_before e + interval cam in
        let '(evs, filepath', raised) := try_except cam e filepath in
        match raised with
        | Some x => (evs, Crashed x)
        | None =>
            let d := sleep_duration next_fetch_time e in
            let flag1 := if signal_in_cycle e then Event_set flag else flag in
            let flag2 := if signal_in_wait e then Event_set flag1 else flag1 in
            let '(tl, out) := poll cam flag2 filepath' rest in
            (evs
               ++ logging_log DEBUG ("[" +:+ name cam +:+ "] Sleeping for "
                                     +:+ pretty d +:+ ".00 seconds...")
               ++ [Wait d (Event_is_set flag2)]
               ++ tl,
             out)
        end
    end.

(** [fetch_and_save(camera_config)] *)
Definition fetch_and_save (cam : camera_config) (flag : bool) (envs : list cycle_env)
  : list event * loop_outcome :=
  let '(evs, out) := poll cam flag None envs in
  (logging_log INFO ("Starting polling for camera: '" +:+ name cam
                       +:+ "' (Interval: " +:+ pretty (interval cam) +:+ "s)")
     ++ evs
     ++ match out with
        | Stopped => logging_log INFO ("Polling stopped for camera: '" +:+ name cam +:+ "'")
        | _ => []
        end,
   out).

(** ** Directory provisioning *)

Inductive node := Dir | File.

(** The part of the file system that [os.makedirs] looks at: what exists
    at a path, and whether the system lets a missing path be created
    (permissions, validity of the path and of its parents). *)
Record filesystem := {
  entries : gmap string node;
  creatable : string -> bool
}.

(** [os.makedirs(p, exist_ok=True)] *)
Definition makedirs (fs : filesystem) (p : string) : exn + filesystem :=
  match entries fs !! p with
  | Some Dir => inr fs
  | Some File => inl (Raise OSError ("[Errno 17] File exists: '" +:+ p +:+ "'"))
  | None =>
      if creatable fs p
      then inr {| entries := <[p := Dir]> (entries fs); creatable := creatable fs |}
      else inl (Raise OSError ("[Errno 13] Permission denied: '" +:+ p +:+ "'"))
  end.

(** The [for cam in CAMERAS] loop of [setup_directories]. *)
Fixpoint setup_camera_dirs (cams : list camera_config) (fs : filesystem)
  : list event * filesystem * option exn :=
  match cams with
  | [] => ([], fs, None)
  | cam :: rest =>
      let cam_dir := path_join SAVE_DIR (name cam) in
      match makedirs fs cam_dir with
      | inl x => ([], fs, Some x)
      | inr fs' =>
          let '(evs, fs'', r) := setup_camera_dirs rest fs' in
          ([Makedirs cam_dir]
             ++ logging_log INFO ("Ensured directory exists for camera '" +:+ name cam
                                    +:+ "': '" +:+ cam_dir +:+ "'")
             ++ evs,
           fs'', r)
      end
  end.

(** [setup_directories()] for the registry [cams].  The last component is
    the status passed to [sys.exit], if it is called. *)
Definition setup_directories (cams : list camera_config) (fs : filesystem)
  : list event * filesystem * option Z :=
  let on_error (x : exn) :=
    logging_log ERROR ("Error creating directories: " +:+ exn_msg x) ++ [Exit 1] in
  match makedirs fs SAVE_DIR with
  | inl x => (on_error x, fs, Some 1)
  | inr fs1 =>
      let ev_root := [Makedirs SAVE_DIR]
                       ++ logging_log INFO ("Main save directory: '" +:+ SAVE_DIR +:+ "'") in
      match setup_camera_dirs cams fs1 with
      | (evs, fs2, Some x) => (ev_root ++ evs ++ on_error x, fs2, Some 1)
      | (evs, fs2, None) => (ev_root ++ evs, fs2, None)
      end
  end.

(** ** The supervisor: the [__main__] block *)

(** One pass of [while not shutdown_event.is_set(): time.sleep(1)]. *)
Inductive tick :=
| Quiet                      (* the second passes *)
| Signal (sig : Z)           (* SIGINT or SIGTERM arrives: the handler runs *)
| SleepRaises (x : exn).     (* the body raises an Exception *)

(** Why the main loop is left, if it is. *)
Inductive main_wait_result :=
| FlagSeen
| MainLoopError (x : exn)
| StillWaiting.

Fixpoint main_wait (flag : bool) (ticks : list tick)
  : list event * bool * main_wait_result :=
  if Event_is_set flag then ([], flag, FlagSeen)
  else
    match ticks with
    | [] => ([], flag, StillWaiting)
    | Quiet :: rest => main_wait flag rest
    | Signal sig :: rest =>
        let '(ev_sig, flag') := signal_handler sig flag in
        let '(evs, flag'', r) := main_wait flag' rest in
        (ev_sig ++ evs, flag'', r)
    | SleepRaises x :: _ =>
        (logging_log ERROR ("Error in main loop: " +:+ exn_msg x), flag, MainLoopError x)
    end.

Definition thread_name_of (cam : camera_config) : string := "CamThread-" +:+ name cam.

(** [thread.join()] returns once the thread's function has returned or
    raised; it blocks while the loop is still polling. *)
Definition joinable (out : loop_outcome) : bool :=
  match out with
  | Stopped | Crashed _ => true
  | Polling _ => false
  end.

(** [for thread in threads: thread.join()]: the joins that return, and
    whether all of them did. *)
Fixpoint join_all (threads : list (camera_config * loop_outcome)) : list event * bool :=
  match threads with
  | [] => ([], true)
  | (cam, out) :: rest =>
      if joinable out then
        let '(evs, ok) := join_all rest in
        (ThreadJoin (thread_name_of cam) :: evs, ok)
      else ([], false)
  end.

(** What the world does during a run of the process.  The loops run
    concurrently with the main thread; each one is given the cycles it
    goes through, and the flag it reads is the one it is told about by
    [signal_in_cycle] and [signal_in_wait]. *)
Record process_env := {
  disk : filesystem;
  ticks : list tick;
  cycles : camera_config -> list cycle_env
}.

Record process_run := {
  main_trace : list event;
  started : list camera_config;                           (* threads started, in order *)
  loops : list (camera_config * (list event * loop_outcome));
  exit_status : option Z                                  (* None: the process has not exited *)
}.

(** The [__main__] block for the registry [cams]. *)
Definition main (cams : list camera_config) (w : process_env) : process_run :=
  let ev_start := logging_log INFO "Starting camera polling script..." in
  match setup_directories cams (disk w) with
  | (ev_setup, _, Some status) =>
      {| main_trace := ev_start ++ ev_setup;
         started := [];
         loops := [];
         exit_status := Some status |}
  | (ev_setup, _, None) =>
      let ev_threads := map (fun cam => ThreadStart (thread_name_of cam)) cams in
      let runs := map (fun cam => (cam, fetch_and_save cam shutdown_event (cycles w cam))) cams in
      let ev_started :=
        logging_log INFO ("Started " +:+ pretty (Z.of_nat (List.length cams))
                            +:+ " camera polling threads.") in
      let '(ev_wait, _, r) := main_wait shutdown_event (ticks w) in
      let before := ev_start ++ ev_setup ++ ev_threads ++ ev_started ++ ev_wait in
      match r with
      | StillWaiting =>
          {| main_trace := before; started := cams; loops := runs; exit_status := None |}
      | _ =>
          let ev_finally :=
            logging_log INFO "Shutdown signal received. Waiting for threads to complete..." in
          let '(ev_join, all_joined) := join_all (map (fun p => (fst p, snd (snd p))) runs) in
          if all_joined then
            {| main_trace := before ++ ev_finally ++ ev_join
                               ++ logging_log INFO "All camera threads finished. Exiting."
                               ++ [Exit 0];
               started := cams; loops := runs; exit_status := Some 0 |}
          else
            {| main_trace := before ++ ev_finally ++ ev_join;
               started := cams; loops := runs; exit_status := None |}
      end
  end.

(** ** create-timelapse.py *)

(** A decoded image.  [cv2.imread] with its default flag always gives a
    three-dimensional array: [frame.shape] is (height, width, layers). *)
Record frame := { height : Z; width : Z; layers : Z; pixels : string }.

(** [cv2.imread(path)]: an array, [None] when the file cannot be read as
    an image, or an exception. *)
Inductive imread_result :=
| Decoded (f : frame)
| Unreadable
| ImreadRaises (x : exn).

(** The capabilities the encoder is given: the directory listing, the
    natural sort of the natsort package, the decoder and the video sink of
    OpenCV. *)
Record codec_env := {
  isdir : string -> bool;
  listdir : string -> list string;
  isfile : string -> bool;
  natsorted : list string -> list string;
  imread : string -> imread_result;
  (* cv2.VideoWriter(output_file, fourcc, fps, size): an exception, or
     what out.isOpened() answers *)
  VideoWriter : string -> string -> Z -> Z * Z -> exn + bool
}.

Inductive tl_event :=
| Print (line : string)
| WriterCreate (output_file fourcc : string) (fps : Z) (size : Z * Z)
| WriterWrite (f : frame)
| WriterRelease.

Definition nl : string := String (ascii_of_nat 10) "".
Definition cr : string := String (ascii_of_nat 13) "".

(** The list comprehension that selects the image files. *)
Definition select_images (w : codec_env) (image_folder image_ext : string) : list string :=
  List.filter (fun f => isfile w (path_join image_folder f)
                   && endswith (lower f) (lower image_ext))
         (listdir w image_folder).

(** The [for i, filename in enumerate(sorted_image_files)] loop. *)
Fixpoint write_frames (w : codec_env) (image_folder : string) (total_frames : nat)
         (i : nat) (files : list string) : list tl_event :=
  match files with
  | [] => []
  | filename :: rest =>
      let image_path := path_join image_folder filename in
      match imread w image_path with
      | Decoded f =>
          [WriterWrite f;
           Print (cr +:+ "Progress: " +:+ pretty (S i) +:+ "/" +:+ pretty total_frames
                     +:+ " frames written")]
      | Unreadable =>
          [Print ("Warning: Skipping unreadable image: " +:+ filename)]
      | ImreadRaises x =>
          [Print (nl +:+ "Error processing image " +:+ filename +:+ ": " +:+ exn_msg x)]
      end
      ++ write_frames w image_folder total_frames (S i) rest
  end.

(** [create_timelapse(image_folder, output_file, fps, image_ext)] *)
Definition create_timelapse (w : codec_env)
           (image_folder output_file : string) (fps : Z) (image_ext : string)
  : list tl_event :=
  let banner :=
    [Print "--- Timelapse Creation Started ---";
     Print ("Image Folder: " +:+ image_folder);
     Print ("Output File: " +:+ output_file);
     Print ("FPS: " +:+ pretty fps);
     Print ("Image Extension: " +:+ image_ext)] in
  if negb (isdir w image_folder) then
    banner ++ [Print ("Error: Image folder '" +:+ image_folder +:+ "' not found.")]
  else
    let image_files := select_images w image_folder image_ext in
    match image_files with
    | [] =>
        banner ++ [Print ("Error: No images with extension '" +:+ image_ext
                            +:+ "' found in '" +:+ image_folder +:+ "'.")]
    | _ :: _ =>
        let ev_found :=
          [Print ("Found " +:+ pretty (List.length image_files) +:+ " images. Sorting...")] in
        let sorted_image_files := natsorted w image_files in
        match sorted_image_files with
        | [] =>
            (* sorted_image_files[0] raises IndexError outside any try *)
            banner ++ ev_found
        | first :: _ =>
            let first_image_path := path_join image_folder first in
            match imread w first_image_path with
            | Unreadable =>
                banner ++ ev_found
                  ++ [Print ("Error: Could not read the first image: " +:+ first_image_path);
                      Print "Check if the file is a valid image and OpenCV is installed correctly."]
            | ImreadRaises x =>
                banner ++ ev_found
                  ++ [Print ("Error reading first image dimensions: " +:+ exn_msg x)]
            | Decoded f =>
                (* height, width, layers = frame.shape; size = (width, height) *)
                let size := (width f, height f) in
                let ev_dims :=
                  [Print ("Video dimensions (WxH): " +:+ pretty (width f)
                            +:+ "x" +:+ pretty (height f))] in
                let fourcc := "mp4v" in
                let ev_create := [WriterCreate output_file fourcc fps size] in
                match VideoWriter w output_file fourcc fps size with
                | inl x =>
                    banner ++ ev_found ++ ev_dims ++ ev_create
                      ++ [Print ("Error initializing VideoWriter: " +:+ exn_msg x)]
                | inr false =>
                    banner ++ ev_found ++ ev_dims ++ ev_create
                      ++ [Print "Error: Could not open VideoWriter.";
                          Print "Check codec compatibility, permissions, and output path."]
                | inr true =>
                    banner ++ ev_found ++ ev_dims ++ ev_create
                      ++ [Print "Writing video frames..."]
                      ++ write_frames w image_folder (List.length sorted_image_files)
                           0 sorted_image_files
                      ++ [WriterRelease;
                          Print (nl +:+ "--- Timelapse Creation Finished ---");
                          Print ("Video saved as: " +:+ output_file)]
                end
            end
        end
    end.

(** What a trace did to the video sink. *)
Definition frames_written (tr : list tl_event) : list frame :=
  omap (fun ev => match ev with WriterWrite f => Some f | _ => None end) tr.

Definition writer_created (tr : list tl_event) : bool :=
  existsb (fun ev => match ev with WriterCreate _ _ _ _ => true | _ => false end) tr.

(** * Vocabulary of the specification *)

(** ** Content types *)

(** The header [h] contains [mime] as a substring, letter case apart. *)
Definition ci_substring (mime : string) (h : option string) : Prop :=
  exists pre mid post, h = Some (pre +:+ mid +:+ post) /\ lower mid = mime.

(** The name [f] ends with [ext], letter case apart. *)
Definition ci_suffix (ext f : string) : Prop :=
  exists pre suf, f = pre +:+ suf /\ lower suf = lower ext.

Definition jpg_warning : event :=
  Log WARNING "Could not determine image type from headers, defaulting to .jpg".

(** ** Readings of a trace *)

(** The durations of the waits, in order. *)
Definition waits (tr : list event) : list Z :=
  omap (fun ev => match ev with Wait d _ => Some d | _ => None end) tr.

(** The requests issued, in order. *)
Definition fetches (tr : list event) : list string :=
  omap (fun ev => match ev with HttpGet u _ => Some u | _ => None end) tr.

(** The files written (path and content), in order. *)
Definition files_written (tr : list event) : list (string * string) :=
  omap (fun ev => match ev with FileWrite p d => Some (p, d) | _ => None end) tr.

(** The records logged at level ERROR, in order. *)
Definition errors_logged (tr : list event) : list string :=
  omap (fun ev => match ev with Log ERROR m => Some m | _ => None end) tr.

(** The deadline of a cycle: the clock before the fetch plus the interval. *)
Definition deadline (cam : camera_config) (e : cycle_env) : Z :=
  monotonic_before e + interval cam.


(** ** Statuses *)

Definition is_2xx (code : Z) : Prop := 200 <= code < 300.

(** The statuses [raise_for_status] raises for. *)
Definition is_4xx_5xx (code : Z) : Prop := 400 <= code < 600.

(** The answer of the server is a response with a 2xx status. *)
Definition answered_2xx (e : cycle_env) : Prop :=
  exists r, get_outcome e = inr r /\ is_2xx (status_code r).

(** The files one fetch attempt writes. *)
Definition attempt_files (cam : camera_config) (e : cycle_env) (fp : option string)
  : list (string * string) :=
  files_written (try_except cam e fp).1.1.

(** The path a cycle saves to, as the [try] suite computes it. *)
Definition saved_path (cam : camera_config) (e : cycle_env) (r : response) : string :=
  path_join (path_join SAVE_DIR (name cam))
            (name cam +:+ "_" +:+ strftime (now e) "%Y%m%d_%H%M%S"
                      +:+ (get_file_extension r).2).

(** ** File names *)

Definition is_digit (c : ascii) : bool :=
  let n := N_of_ascii c in ((48 <=? n) && (n <=? 57))%N.

Fixpoint all_digits (s : string) : bool :=
  match s with
  | EmptyString => true
  | String c s' => is_digit c && all_digits s'
  end.

(** The fields of a [datetime] as the clock of a running system gives them. *)
Definition valid_datetime (dt : datetime) : Prop :=
  1000 <= year dt <= 9999 /\ 1 <= month dt <= 12 /\ 1 <= day dt <= 31
  /\ 0 <= hour dt <= 23 /\ 0 <= minute dt <= 59 /\ 0 <= second dt <= 59.

(** The timestamp of the specification: [YYYYMMDDHHMMSS]. *)
Definition spec_timestamp (dt : datetime) : string := strftime dt "%Y%m%d%H%M%S".

(** The path of the specification: [{root}/{name}/{name}_{timestamp}{ext}]. *)
Definition spec_path (root nm timestamp ext : string) : string :=
  root +:+ "/" +:+ nm +:+ "/" +:+ nm +:+ "_" +:+ timestamp +:+ ext.

(** A camera name that is a single, plain path component boundary-wise:
    not empty, no slash at either end. *)
Definition plain_name (nm : string) : Prop :=
  nm <> "" /\ startswith nm "/" = false /\ endswith nm "/" = false.

(** The number a string of decimal digits denotes. *)
Fixpoint number_from (acc : Z) (s : string) : Z :=
  match s with
  | EmptyString => acc
  | String c s' => number_from (acc * 10 + (Z.of_N (N_of_ascii c) - 48)) s'
  end.

Definition number_of (s : string) : Z := number_from 0 s.

(** ** Directories *)

(** The directory of a camera. *)
Definition cam_dir_of (cam : camera_config) : string := path_join SAVE_DIR (name cam).




(** ** The encoder *)

(** The frame of the file [f] of the folder, if it decodes. *)
Definition decode (w : codec_env) (image_folder f : string) : option frame :=
  match imread w (path_join image_folder f) with
  | Decoded fr => Some fr
  | _ => None
  end.

(** The selected files in natural-sort order. *)
Definition sorted_files (w : codec_env) (image_folder image_ext : string) : list string :=
  natsorted w (select_images w image_folder image_ext).

(** ** The supervisor *)




(** ** Sample inputs *)

(** The second camera of the shipped registry. *)
Definition pool : camera_config :=
  {| name := "Pool"; url := "https://example.com/Pool.jpg"; interval := 30 |}.

(** A cycle in which the server answers with status [code] and a JPEG body
    and saving meets [s]. *)
Definition cycle_with (code : Z) (s : save_outcome) : cycle_env :=
  {| monotonic_before := 1000;
     get_outcome := inr {| status_code := code; reason := "";
                           content_type := Some "image/jpeg"; content := "body" |};
     now := {| year := 2024; month := 1; day := 2; hour := 3; minute := 4; second := 5 |};
     save := s;
     monotonic_after := 1005;
     signal_in_cycle := false;
     signal_in_wait := false |}.

(** A bare [OSError] out of [requests.get] (the requests adapter raises
    one when the CA bundle it is pointed at does not exist) in a run where
    nothing was saved before. *)
Definition cycle_oserror : cycle_env :=
  {| monotonic_before := 1000;
     get_outcome :=
       inl (Raise OSError
              "Could not find a suitable TLS CA certificate bundle, invalid path: /etc/ssl/ca.pem");
     now := {| year := 2024; month := 1; day := 2; hour := 3; minute := 4; second := 5 |};
     save := SaveOk;
     monotonic_after := 1001;
     signal_in_cycle := false;
     signal_in_wait := false |}.



(** An empty disk on which everything can be created. *)
Definition empty_disk : filesystem := {| entries := ∅; creatable := fun _ => true |}.

(** A cycle like [cycle_with 200 SaveOk] during whose wait the signal comes. *)
Definition last_cycle : cycle_env :=
  {| monotonic_before := 1000;
     get_outcome := inr {| status_code := 200; reason := "OK";
                           content_type := Some "image/jpeg"; content := "body" |};
     now := {| year := 2024; month := 1; day := 2; hour := 3; minute := 4; second := 5 |};
     save := SaveOk;
     monotonic_after := 1005;
     signal_in_cycle := false;
     signal_in_wait := true |}.

(** A run in which SIGINT (2) arrives after two quiet seconds and every
    loop is in the wait of its first cycle by then. *)
Definition short_run : process_env :=
  {| disk := empty_disk; ticks := [Quiet; Quiet; Signal 2]; cycles := fun _ => [last_cycle] |}.

(** A decoded picture, told apart by the path it was read from. *)
Definition picture (s : string) : frame :=
  {| height := 480; width := 640; layers := 3; pixels := s |}.

(** A folder with three pictures (one of them damaged), a text file and a
    directory whose name ends in .jpg. *)
Definition shots : codec_env :=
  {| isdir := fun p => String.eqb p "shots";
     listdir := fun _ => ["img10.jpg"; "notes.txt"; "img2.JPG"; "old.jpg"; "img1.jpg"];
     isfile := fun p => negb (String.eqb p "shots/old.jpg");
     natsorted := fun _ => ["img1.jpg"; "img2.JPG"; "img10.jpg"];
     imread := fun p => if String.eqb p "shots/img2.JPG" then Unreadable else Decoded (picture p);
     VideoWriter := fun _ _ _ _ => inr true |}.

(** ** Schedules *)

(** The clock agrees with the waits: every cycle but the first starts no
    earlier than the end of the wait of the cycle before it. *)
Fixpoint waited_out (cam : camera_config) (envs : list cycle_env) : Prop :=
  match envs with
  | e :: rest =>
      match rest with
      | e' :: _ =>
          monotonic_after e + sleep_duration (deadline cam e) e <= monotonic_before e'
      | [] => True
      end
      /\ waited_out cam rest
  | [] => True
  end.

(** Every fetch is over by its deadline, and every cycle but the first
    starts exactly when the wait of the cycle before it ends. *)
Fixpoint on_schedule (cam : camera_config) (envs : list cycle_env) : Prop :=
  match envs with
  | e :: rest =>
      monotonic_after e <= deadline cam e
      /\ match rest with
         | e' :: _ =>
             monotonic_before e' = monotonic_after e + sleep_duration (deadline cam e) e
         | [] => True
         end
      /\ on_schedule cam rest
  | [] => True
  end.

(** Three cycles of the camera [pool] whose fetches take 5, 40 and 2 on a
    clock that starts at 1000. *)
Definition cycle_at (t_before t_after : Z) : cycle_env :=
  {| monotonic_before := t_before;
     get_outcome := inl (Raise Timeout "");
     now := {| year := 2024; month := 1; day := 2; hour := 3; minute := 4; second := 5 |};
     save := SaveOk;
     monotonic_after := t_after;
     signal_in_cycle := false;
     signal_in_wait := false |}.

Definition three_cycles : list cycle_env :=
  [cycle_at 1000 1005; cycle_at 1030 1070; cycle_at 1070 1072].

Definition punctual_cycles : list cycle_env :=
  [cycle_at 1000 1005; cycle_at 1030 1031; cycle_at 1060 1072].

(** ** More sample inputs *)


(** The first camera of the shipped registry. *)
Definition front_door : camera_config :=
  {| name := "Front Door"; url := "https://example.com/FrontDoor.JPG"; interval := 60 |}.



(** What a trace of the encoder does to the video writer, in order: the
    trace without its printed lines. *)
Definition writer_ops (tr : list tl_event) : list tl_event :=
  List.filter (fun ev => match ev with Print _ => false | _ => true end) tr.

(** The progress line printed after the file at (1-based) position [pos]
    of [total]. *)
Definition progress_line (pos total : nat) : tl_event :=
  Print (cr +:+ "Progress: " +:+ pretty pos +:+ "/" +:+ pretty total +:+ " frames written").

(** * Properties *)

(** ** Strings *)

#[local] Arguments String.append !_ _ / : simpl nomatch.

Lemma append_assoc (a b c : string) : (a +:+ b) +:+ c = a +:+ (b +:+ c).
Proof. induction a as [|x a IH]; simpl; [reflexivity | now rewrite IH]. Qed.

Lemma lower_app (a b : string) : lower (a +:+ b) = lower a +:+ lower b.
Proof. induction a as [|x a IH]; simpl; [reflexivity | now rewrite IH]. Qed.

Lemma lower_split (s a b : string) :
  lower s = a +:+ b -> exists a' b', s = a' +:+ b' /\ lower a' = a /\ lower b' = b.
Proof.
  revert s; induction a as [|x a IH]; intros s H.
  - exists "", s. auto.
  - destruct s as [|c s]; simpl in H; [discriminate |].
    injection H as Hc Hs.
    destruct (IH _ Hs) as (a' & b' & -> & Ha & Hb).
    exists (String c a'), b'. simpl. rewrite Hc, Ha. auto.
Qed.

Lemma prefix_iff (p s : string) :
  String.prefix p s = true <-> exists post, s = p +:+ post.
Proof.
  revert s; induction p as [|x p IH]; intros s.
  - destruct s; simpl; (split; [intros _; eexists; reflexivity | reflexivity]).
  - destruct s as [|c s]; simpl.
    + split; [discriminate | intros [post H]; discriminate].
    + destruct (ascii_dec x c) as [->|Hne].
      * rewrite IH. split; intros [post H]; exists post; [now rewrite H | now injection H].
      * split; [discriminate | intros [post H]; injection H; congruence].
Qed.

Lemma str_in_nil (n : string) : str_in n "" = String.prefix n "" || false.
Proof. reflexivity. Qed.

Lemma str_in_cons (n : string) (c : ascii) (s : string) :
  str_in n (String c s) = String.prefix n (String c s) || str_in n s.
Proof. reflexivity. Qed.

Lemma str_in_iff (n s : string) :
  str_in n s = true <-> exists pre post, s = pre +:+ n +:+ post.
Proof.
  induction s as [|c s IH].
  - rewrite str_in_nil, orb_false_r, prefix_iff. split.
    + intros [post H]. exists "", post. exact H.
    + intros (pre & post & H). destruct pre; simpl in H; [eauto | discriminate].
  - rewrite str_in_cons, orb_true_iff, prefix_iff, IH. split.
    + intros [[post H] | (pre & post & H)].
      * exists "", post. exact H.
      * exists (String c pre), post. simpl. now rewrite H.
    + intros (pre & post & H). destruct pre as [|x pre]; simpl in H.
      * left. eauto.
      * right. injection H as _ H. eauto.
Qed.

Lemma endswith_nil (suf : string) : endswith "" suf = String.eqb "" suf || false.
Proof. reflexivity. Qed.

Lemma endswith_cons (c : ascii) (s suf : string) :
  endswith (String c s) suf = String.eqb (String c s) suf || endswith s suf.
Proof. reflexivity. Qed.

Lemma endswith_iff (s suf : string) :
  endswith s suf = true <-> exists pre, s = pre +:+ suf.
Proof.
  induction s as [|c s IH].
  - rewrite endswith_nil, orb_false_r, String.eqb_eq. split.
    + intros <-. exists "". reflexivity.
    + intros [pre H]. destruct pre; simpl in H; [exact H | discriminate].
  - rewrite endswith_cons, orb_true_iff, String.eqb_eq, IH. split.
    + intros [H | [pre H]].
      * exists "". exact H.
      * exists (String c pre). simpl. now rewrite H.
    + intros [pre H]. destruct pre as [|x pre]; simpl in H.
      * left. exact H.
      * right. injection H as _ H. eauto.
Qed.

(** [mime in h.lower()] is the substring test, letter case apart. *)
Lemma str_in_lower_iff (mime h : string) :
  str_in mime (lower h) = true <-> ci_substring mime (Some h).
Proof.
  rewrite str_in_iff. unfold ci_substring. split.
  - intros (pre & post & H).
    apply lower_split in H as (pre' & rest & -> & _ & Hrest).
    apply lower_split in Hrest as (mid & post' & -> & Hmid & _).
    exists pre', mid, post'. auto.
  - intros (pre & mid & post & [= ->] & Hm).
    exists (lower pre), (lower post). now rewrite !lower_app, Hm.
Qed.

(** [f.lower().endswith(ext.lower())] is the suffix test, letter case apart. *)
Lemma endswith_lower_iff (f ext : string) :
  endswith (lower f) (lower ext) = true <-> ci_suffix ext f.
Proof.
  rewrite endswith_iff. unfold ci_suffix. split.
  - intros [pre H]. apply lower_split in H as (pre' & suf & -> & _ & Hs). eauto.
  - intros (pre & suf & -> & Hs). exists (lower pre). now rewrite lower_app, Hs.
Qed.

(** ** The extension of a saved file *)

Lemma ci_substring_None (mime : string) : ~ ci_substring mime None.
Proof. intros (pre & mid & post & H & _). discriminate. Qed.

Lemma ci_substring_false (mime h : string) :
  str_in mime (lower h) = false -> ~ ci_substring mime (Some h).
Proof. intros H C. apply str_in_lower_iff in C. congruence. Qed.

Example get_file_extension_png :
  get_file_extension {| status_code := 200; reason := "OK";
                        content_type := Some "Image/PNG; charset=binary";
                        content := "" |} = ([], ".png").
Proof. reflexivity. Qed.

Example get_file_extension_missing :
  get_file_extension {| status_code := 200; reason := "OK";
                        content_type := None; content := "" |}
  = ([jpg_warning], ".jpg").
Proof. reflexivity. Qed.

(** C6.  The extension is decided by which of the four MIME types occurs in
    the content-type header, letter case apart: image/jpeg gives .jpg,
    image/png .png, image/gif .gif, image/bmp .bmp (the first of them in
    that order when several occur), without a warning; with no header, or
    a header that contains none of the four, the extension is .jpg and the
    warning is logged. *)
Theorem get_file_extension_classifies (r : response) :
  let h := content_type r in
  let jpeg := ci_substring "image/jpeg" h in
  let png := ci_substring "image/png" h in
  let gif := ci_substring "image/gif" h in
  let bmp := ci_substring "image/bmp" h in
  (jpeg /\ get_file_extension r = ([], ".jpg"))
  \/ (~ jpeg /\ png /\ get_file_extension r = ([], ".png"))
  \/ (~ jpeg /\ ~ png /\ gif /\ get_file_extension r = ([], ".gif"))
  \/ (~ jpeg /\ ~ png /\ ~ gif /\ bmp /\ get_file_extension r = ([], ".bmp"))
  \/ (~ jpeg /\ ~ png /\ ~ gif /\ ~ bmp
      /\ get_file_extension r = ([jpg_warning], ".jpg")).
Proof.
  unfold get_file_extension. destruct (content_type r) as [ct|]; cbv zeta.
  2: { do 4 right. repeat split; try apply ci_substring_None. }
  destruct ct as [|c ct].
  { do 4 right. repeat split; try (apply ci_substring_false; reflexivity). }
  set (h := String c ct).
  replace (negb (String.eqb h "")) with true by reflexivity.
  destruct (str_in "image/jpeg" (lower h)) eqn:Hj.
  { left. split; [now apply str_in_lower_iff | reflexivity]. }
  apply ci_substring_false in Hj. right.
  destruct (str_in "image/png" (lower h)) eqn:Hp.
  { left. repeat split; [exact Hj | now apply str_in_lower_iff]. }
  apply ci_substring_false in Hp. right.
  destruct (str_in "image/gif" (lower h)) eqn:Hg.
  { left. repeat split; [exact Hj | exact Hp | now apply str_in_lower_iff]. }
  apply ci_substring_false in Hg. right.
  destruct (str_in "image/bmp" (lower h)) eqn:Hb.
  { left. repeat split; [exact Hj | exact Hp | exact Hg | now apply str_in_lower_iff]. }
  apply ci_substring_false in Hb. right.
  repeat split; assumption.
Qed.

(** ** The loop and its events *)

Lemma poll_set (cam : camera_config) (fp : option string) (envs : list cycle_env) :
  poll cam true fp envs = ([], Stopped).
Proof. destruct envs; reflexivity. Qed.

Lemma poll_nil (cam : camera_config) (fp : option string) :
  poll cam false fp [] = ([], Polling fp).
Proof. reflexivity. Qed.

Lemma poll_cons (cam : camera_config) (fp : option string) (e : cycle_env)
      (rest : list cycle_env) :
  poll cam false fp (e :: rest) =
  let '(evs, fp', raised) := try_except cam e fp in
  match raised with
  | Some x => (evs, Crashed x)
  | None =>
      let flag2 := signal_in_cycle e || signal_in_wait e in
      let '(tl, out) := poll cam flag2 fp' rest in
      (evs
         ++ logging_log DEBUG ("[" +:+ name cam +:+ "] Sleeping for "
                                 +:+ pretty (sleep_duration (deadline cam e) e)
                                 +:+ ".00 seconds...")
         ++ [Wait (sleep_duration (deadline cam e) e) flag2] ++ tl,
       out)
  end.
Proof.
  simpl. destruct (try_except cam e fp) as [[evs fp'] [x|]]; [reflexivity |].
  unfold Event_set, Event_is_set, deadline.
  destruct (signal_in_cycle e), (signal_in_wait e); reflexivity.
Qed.

(** The body of a cycle issues exactly one request and never waits. *)
Lemma try_suite_events (cam : camera_config) (e : cycle_env) (fp : option string) :
  waits (try_suite cam e fp).1.1 = []
  /\ fetches (try_suite cam e fp).1.1 = [url cam].
Proof.
  unfold try_suite, get_file_extension.
  repeat case_match; simplify_eq; split; reflexivity.
Qed.

Lemma except_clauses_events (cam : camera_config) (fp : option string) (x : exn)
      (hevs : list event) :
  except_clauses cam fp x = inr hevs -> waits hevs = [] /\ fetches hevs = [].
Proof.
  unfold except_clauses. repeat case_match; intros; simplify_eq; split; reflexivity.
Qed.

Lemma try_except_events (cam : camera_config) (e : cycle_env) (fp : option string) :
  waits (try_except cam e fp).1.1 = []
  /\ fetches (try_except cam e fp).1.1 = [url cam].
Proof.
  unfold try_except.
  pose proof (try_suite_events cam e fp) as [Hw Hf].
  destruct (try_suite cam e fp) as [[evs fp'] [x|]]; simpl in *; [|auto].
  destruct (except_clauses cam fp' x) as [x'|hevs] eqn:Hh; simpl; [auto |].
  apply except_clauses_events in Hh as [Hw' Hf'].
  unfold waits, fetches in *. rewrite !omap_app, Hw, Hf, Hw', Hf'. auto.
Qed.

Example poll_30_5 :
  waits (poll {| name := "Pool"; url := "u"; interval := 30 |} false None
           [ {| monotonic_before := 1000; get_outcome := inl (Raise Timeout "");
                now := Build_datetime 2024 1 2 3 4 5; save := SaveOk;
                monotonic_after := 1005;
                signal_in_cycle := false; signal_in_wait := false |} ]).1
  = [25].
Proof. reflexivity. Qed.

Lemma waits_logging_log (lvl : level) (m : string) : waits (logging_log lvl m) = [].
Proof. unfold logging_log. case_match; reflexivity. Qed.

Lemma fetches_logging_log (lvl : level) (m : string) : fetches (logging_log lvl m) = [].
Proof. unfold logging_log. case_match; reflexivity. Qed.

(** The trace of a cycle that completes, followed by the rest of the run. *)
Lemma waits_cycle (evs tl : list event) (lvl : level) (m : string) (d : Z) (b : bool) :
  waits evs = [] ->
  waits (evs ++ logging_log lvl m ++ [Wait d b] ++ tl) = d :: waits tl.
Proof.
  intros H. unfold waits in *. rewrite !omap_app, H.
  fold (waits (logging_log lvl m)). now rewrite waits_logging_log.
Qed.

Lemma fetches_cycle (evs tl : list event) (lvl : level) (m u : string) (d : Z) (b : bool) :
  fetches evs = [u] ->
  fetches (evs ++ logging_log lvl m ++ [Wait d b] ++ tl) = u :: fetches tl.
Proof.
  intros H. unfold fetches in *. rewrite !omap_app, H.
  fold (fetches (logging_log lvl m)). now rewrite fetches_logging_log.
Qed.




(** ** One fetch attempt *)

Lemma raise_for_status_None (u : string) (r : response) :
  raise_for_status u r = None <-> ~ is_4xx_5xx (status_code r).
Proof.
  unfold raise_for_status, is_4xx_5xx.
  destruct (400 <=? status_code r) eqn:H1, (status_code r <? 500) eqn:H2,
           (500 <=? status_code r) eqn:H3, (status_code r <? 600) eqn:H4; simpl;
    split; intros H; try discriminate; try reflexivity; try lia; exfalso; apply H; lia.
Qed.

Lemma raise_for_status_Some (u : string) (r : response) :
  is_4xx_5xx (status_code r) ->
  exists m, raise_for_status u r = Some (Raise HTTPError m).
Proof.
  unfold raise_for_status, is_4xx_5xx. intros H.
  destruct (400 <=? status_code r) eqn:H1, (status_code r <? 500) eqn:H2,
           (500 <=? status_code r) eqn:H3, (status_code r <? 600) eqn:H4; simpl;
    try (eexists; reflexivity); lia.
Qed.

Example attempt_304 :
  attempt_files pool (cycle_with 304 SaveOk) None
  = [("camera_images/Pool/Pool_20240102_030405.jpg", "body")].
Proof. reflexivity. Qed.

Example attempt_500 :
  (try_except pool (cycle_with 500 SaveOk) None).1.1
  = [HttpGet "https://example.com/Pool.jpg" 15;
     Log ERROR "[Pool] Error fetching image from https://example.com/Pool.jpg: 500 Server Error:  for url: https://example.com/Pool.jpg"].
Proof. reflexivity. Qed.

(** C2 as stated fails in both directions: a 304 is not a 2xx status and
    its body is written; a 200 whose file cannot be opened writes nothing. *)
Lemma one_file_iff_2xx_fails :
  ~ (List.length (attempt_files pool (cycle_with 304 SaveOk) None) = 1%nat
     <-> answered_2xx (cycle_with 304 SaveOk))
  /\ ~ (List.length (attempt_files pool (cycle_with 200 (OpenFails "denied")) None) = 1%nat
        <-> answered_2xx (cycle_with 200 (OpenFails "denied"))).
Proof.
  split; intros [H1 H2].
  - destruct (H1 eq_refl) as (r & Hr & Hs).
    injection Hr as <-. unfold is_2xx in Hs. simpl in Hs. lia.
  - assert (answered_2xx (cycle_with 200 (OpenFails "denied"))) as Ha.
    { eexists. split; [reflexivity |]. unfold is_2xx. simpl. lia. }
    apply H2 in Ha. vm_compute in Ha. discriminate.
Qed.

Lemma files_written_get_file_extension (r : response) :
  files_written (get_file_extension r).1 = [].
Proof. unfold get_file_extension. repeat case_match; reflexivity. Qed.

(** What the [try] suite writes. *)
Lemma try_suite_files (cam : camera_config) (e : cycle_env) (fp : option string) :
  files_written (try_suite cam e fp).1.1 =
  match get_outcome e with
  | inr r =>
      match raise_for_status (url cam) r, save e with
      | None, SaveOk => [(saved_path cam e r, content r)]
      | _, _ => []
      end
  | inl _ => []
  end.
Proof.
  unfold try_suite, saved_path.
  destruct (get_outcome e) as [x|r]; [reflexivity |].
  destruct (raise_for_status (url cam) r); [reflexivity |].
  pose proof (files_written_get_file_extension r) as Hext.
  destruct (get_file_extension r) as [ev_ext ext]. cbn [fst snd] in *.
  destruct (save e); cbn [fst snd]; unfold files_written in *;
    rewrite !omap_app, ?Hext; reflexivity.
Qed.

Lemma except_clauses_files (cam : camera_config) (fp : option string) (x : exn)
      (hevs : list event) :
  except_clauses cam fp x = inr hevs -> files_written hevs = [].
Proof.
  unfold except_clauses. repeat case_match; intros; simplify_eq; reflexivity.
Qed.

Lemma try_except_files (cam : camera_config) (e : cycle_env) (fp : option string) :
  attempt_files cam e fp = files_written (try_suite cam e fp).1.1.
Proof.
  unfold attempt_files, try_except.
  destruct (try_suite cam e fp) as [[evs fp'] [x|]]; cbn [fst snd]; [|reflexivity].
  destruct (except_clauses cam fp' x) as [x'|hevs] eqn:Hh; cbn [fst snd]; [reflexivity |].
  apply except_clauses_files in Hh.
  unfold files_written in *. now rewrite omap_app, Hh, app_nil_r.
Qed.

(** What a 4xx or 5xx answer leaves in the trace. *)
Lemma try_except_http_error (cam : camera_config) (e : cycle_env) (fp : option string)
      (r : response) (x : exn) :
  get_outcome e = inr r ->
  raise_for_status (url cam) r = Some x ->
  try_except cam e fp =
  (logging_log DEBUG ("[" +:+ name cam +:+ "] Fetching image from " +:+ url cam)
     ++ [HttpGet (url cam) REQUEST_TIMEOUT]
     ++ logging_log ERROR ("[" +:+ name cam +:+ "] Error fetching image from "
                             +:+ url cam +:+ ": " +:+ exn_msg x),
   fp, None).
Proof.
  intros Hg Hr. unfold try_except, try_suite. rewrite Hg, Hr.
  assert (exn_cls x = HTTPError) as Hc.
  { unfold raise_for_status in Hr. repeat case_match; simplify_eq; reflexivity. }
  unfold except_clauses, is_Timeout, is_RequestException. rewrite Hc.
  now rewrite <- app_assoc.
Qed.

(** C2, amended.  A fetch attempt writes at most one file, and exactly one
    if and only if a response arrives whose status is neither 4xx nor 5xx
    and the file is opened and written without an error; a 4xx or 5xx
    answer (HTTP 500, say) writes no file, logs one error that names the
    camera, and raises nothing. *)
Theorem attempt_writes_iff_saved (cam : camera_config) (e : cycle_env)
        (fp : option string) :
  (List.length (attempt_files cam e fp) = 1%nat
   <-> exists r, get_outcome e = inr r /\ ~ is_4xx_5xx (status_code r) /\ save e = SaveOk)
  /\ (List.length (attempt_files cam e fp) <= 1)%nat
  /\ (forall r, get_outcome e = inr r -> is_4xx_5xx (status_code r) ->
        attempt_files cam e fp = []
        /\ (try_except cam e fp).2 = None
        /\ exists x, raise_for_status (url cam) r = Some x
             /\ errors_logged (try_except cam e fp).1.1
                = ["[" +:+ name cam +:+ "] Error fetching image from "
                       +:+ url cam +:+ ": " +:+ exn_msg x]).
Proof.
  rewrite try_except_files, try_suite_files. repeat split.
  - destruct (get_outcome e) as [x|r]; [discriminate |].
    destruct (raise_for_status (url cam) r) eqn:Hr; [discriminate |].
    destruct (save e); try discriminate.
    intros _. exists r. repeat split. now apply (raise_for_status_None (url cam)).
  - intros (r & -> & Hs & ->).
    apply (raise_for_status_None (url cam)) in Hs. now rewrite Hs.
  - repeat case_match; simpl; lia.
  - destruct (raise_for_status_Some (url cam) r H0) as [m Hm]. now rewrite H, Hm.
  - destruct (raise_for_status_Some (url cam) r H0) as [m Hm].
    now rewrite (try_except_http_error cam e fp r _ H Hm).
  - destruct (raise_for_status_Some (url cam) r H0) as [m Hm].
    eexists. split; [exact Hm |].
    rewrite (try_except_http_error cam e fp r _ H Hm). reflexivity.
Qed.

(** ** Shutdown *)

(** A signal delivered during a cycle ends the run with that cycle: what
    the world would have answered afterwards is never asked. *)
Lemma poll_signal (cam : camera_config) (e : cycle_env) (post : list cycle_env) :
  signal_in_cycle e || signal_in_wait e = true ->
  forall (pre : list cycle_env) (flag : bool) (fp : option string),
    poll cam flag fp (pre ++ e :: post) = poll cam flag fp (pre ++ [e])
    /\ joinable (poll cam flag fp (pre ++ [e])).2 = true.
Proof.
  intros Hsig. induction pre as [|p pre IH]; intros [|] fp;
    rewrite ?poll_set; try (split; reflexivity).
  - simpl app. rewrite !poll_cons.
    destruct (try_except cam e fp) as [[evs fp'] [x|]]; [split; reflexivity |].
    cbv zeta. rewrite Hsig, !poll_set. split; reflexivity.
  - simpl app. rewrite !poll_cons.
    destruct (try_except cam p fp) as [[evs fp'] [x|]]; [split; reflexivity |].
    cbv zeta. destruct (IH (signal_in_cycle p || signal_in_wait p) fp') as [-> Hj].
    destruct (poll cam _ fp' (pre ++ [e])) as [tl out]. split; [reflexivity | exact Hj].
Qed.

(** A loop that was entered and stops does so right after a wait that
    saw the flag. *)
Lemma poll_stops_after_wait (cam : camera_config) (envs : list cycle_env) :
  forall (fp : option string) (tr : list event),
    poll cam false fp envs = (tr, Stopped) ->
    exists tr' d, tr = tr' ++ [Wait d true].
Proof.
  induction envs as [|e rest IH]; intros fp tr; [discriminate |].
  rewrite poll_cons.
  destruct (try_except cam e fp) as [[evs fp'] [x|]]; [discriminate |].
  cbv zeta. destruct (signal_in_cycle e || signal_in_wait e) eqn:Hsig.
  - rewrite poll_set. set (l := logging_log _ _). intros [= <-].
    exists (evs ++ l), (sleep_duration (deadline cam e) e).
    now rewrite <- app_assoc.
  - specialize (IH fp'). destruct (poll cam false fp' rest) as [tl out].
    set (l := logging_log _ _). intros [= <- ->].
    destruct (IH tl eq_refl) as (tr' & d & ->).
    exists (evs ++ l ++ [Wait (sleep_duration (deadline cam e) e) false] ++ tr'), d.
    now rewrite <- !app_assoc.
Qed.

Lemma poll_fetches_le (cam : camera_config) (envs : list cycle_env) :
  forall (flag : bool) (fp : option string),
    (List.length (fetches (poll cam flag fp envs).1) <= List.length envs)%nat.
Proof.
  induction envs as [|e rest IH]; intros [|] fp;
    rewrite ?poll_set, ?poll_nil; try (simpl; lia).
  rewrite poll_cons.
  pose proof (try_except_events cam e fp) as [_ Hf].
  destruct (try_except cam e fp) as [[evs fp'] [x|]]; cbn [fst snd] in *.
  - rewrite Hf. simpl. lia.
  - specialize (IH (signal_in_cycle e || signal_in_wait e) fp').
    destruct (poll cam _ fp' rest) as [tl out]. cbn [fst snd] in *.
    rewrite (fetches_cycle _ _ _ _ (url cam)) by exact Hf. simpl. lia.
Qed.

Lemma main_wait_set (ticks : list tick) : main_wait true ticks = ([], true, FlagSeen).
Proof. destruct ticks; reflexivity. Qed.

Example fetch_and_save_after_shutdown :
  fetch_and_save pool true [cycle_with 200 SaveOk; cycle_with 200 SaveOk]
  = ([Log INFO "Starting polling for camera: 'Pool' (Interval: 30s)";
      Log INFO "Polling stopped for camera: 'Pool'"], Stopped).
Proof. reflexivity. Qed.

(** C3.  The flag starts false; the handler sets it whatever it was, so
    setting is idempotent and nothing clears it; a loop that finds it set
    stops without a single event; a signal during a cycle (while the fetch
    runs or during the wait) makes that cycle the last one; and a loop
    that stops after having run does so right after a wait that returned
    because the flag was set. *)
Theorem shutdown_flag_stops_polling :
  shutdown_event = false
  /\ (forall sig flag, (signal_handler sig flag).2 = true)
  /\ (forall s1 s2 flag,
        (signal_handler s2 (signal_handler s1 flag).2).2 = (signal_handler s1 flag).2)
  /\ (forall ticks flag, flag = true -> (main_wait flag ticks).1.2 = true)
  /\ (forall cam fp envs,
        poll cam true fp envs = ([], Stopped)
        /\ fetches (fetch_and_save cam true envs).1 = [])
  /\ (forall cam fp pre e post,
        signal_in_cycle e || signal_in_wait e = true ->
        poll cam false fp (pre ++ e :: post) = poll cam false fp (pre ++ [e])
        /\ joinable (poll cam false fp (pre ++ e :: post)).2 = true
        /\ (List.length (fetches (poll cam false fp (pre ++ e :: post)).1)
            <= S (List.length pre))%nat)
  /\ (forall cam fp envs tr,
        poll cam false fp envs = (tr, Stopped) ->
        exists tr' d, tr = tr' ++ [Wait d true]).
Proof.
  split; [reflexivity |]. split; [reflexivity |]. split; [reflexivity |].
  split; [intros ticks flag ->; now rewrite main_wait_set |].
  split; [| split].
  - intros cam fp envs. split; [apply poll_set |].
    unfold fetch_and_save. rewrite poll_set. reflexivity.
  - intros cam fp pre e post Hsig.
    destruct (poll_signal cam e post Hsig pre false fp) as [Heq Hj].
    rewrite Heq. split; [reflexivity |]. split; [exact Hj |].
    pose proof (poll_fetches_le cam (pre ++ [e]) false fp) as Hn.
    rewrite length_app in Hn. simpl in Hn. lia.
  - intros cam fp envs tr. apply poll_stops_after_wait.
Qed.

(** ** Failures of a cycle *)

(** X3.  Whatever leaves the [try] suite is logged with the camera's name
    and the statement ends normally, provided [filepath] is bound by then
    or the exception is not a bare [OSError]. *)
Lemma cycle_failure_is_logged (cam : camera_config) (e : cycle_env)
      (fp fp' : option string) (evs : list event) (x : exn) :
  try_suite cam e fp = (evs, fp', Some x) ->
  is_Some fp' \/ exn_cls x <> OSError ->
  exists m, try_except cam e fp
            = (evs ++ [Log ERROR ("[" +:+ name cam +:+ "] " +:+ m)], fp', None).
Proof.
  intros Hs Hok. unfold try_except. rewrite Hs. unfold except_clauses.
  destruct x as [cls msg].
  destruct cls; unfold is_Timeout, is_RequestException, is_OSError; cbn [exn_cls exn_msg].
  - exists ("Timeout error fetching image from " +:+ url cam). reflexivity.
  - exists ("Error fetching image from " +:+ url cam +:+ ": " +:+ msg). reflexivity.
  - exists ("Error fetching image from " +:+ url cam +:+ ": " +:+ msg). reflexivity.
  - destruct Hok as [[p ->] | Hne]; [| now destruct Hne].
    exists ("Error saving image to " +:+ p +:+ ": " +:+ msg). reflexivity.
  - exists ("An unexpected error occurred: " +:+ msg). reflexivity.
  - exists ("An unexpected error occurred: " +:+ msg). reflexivity.
Qed.

Lemma raise_for_status_cls (u : string) (r : response) (x : exn) :
  raise_for_status u r = Some x -> exn_cls x = HTTPError.
Proof.
  unfold raise_for_status. repeat case_match; intros; simplify_eq; reflexivity.
Qed.

(** X1.  The one way out of the loop body: a bare [OSError] raised by
    [requests.get] while [filepath] has never been assigned. *)
Lemma try_except_escapes_iff (cam : camera_config) (e : cycle_env) (fp : option string) :
  (try_except cam e fp).2 <> None
  <-> fp = None /\ exists x, get_outcome e = inl x /\ exn_cls x = OSError.
Proof.
  unfold try_except, try_suite.
  destruct (get_outcome e) as [[cls msg]|r].
  - unfold except_clauses, is_Timeout, is_RequestException, is_OSError. cbn [exn_cls].
    destruct cls, fp as [p|]; cbn [snd]; split;
      try (intros H; now destruct H);
      try (intros (? & y & [= <-] & ?); discriminate);
      try (intros (? & _); discriminate).
    intros _. split; [reflexivity |]. eexists. split; reflexivity.
  - assert (forall P : Prop, P <-> P) as Hrefl by tauto.
    assert (forall o : option exn,
               o = None ->
               (o <> None <-> fp = None /\ exists x, @inr exn response r = inl x
                                                     /\ exn_cls x = OSError)) as Hno.
    { intros o ->. split; [intros H; now destruct H |].
      intros (_ & x & Hx & _). discriminate. }
    destruct (raise_for_status (url cam) r) as [x|] eqn:Hr.
    + apply raise_for_status_cls in Hr. apply Hno.
      unfold except_clauses, is_Timeout, is_RequestException. now rewrite Hr.
    + destruct (get_file_extension r) as [ev_ext ext].
      destruct (save e); apply Hno; reflexivity.
Qed.

(** C4 fails on the code at this input: on the first cycle of the loop the
    handler of [OSError] formats [filepath], which is still unbound; the
    [UnboundLocalError] leaves the loop, nothing is logged for the camera,
    there is no wait and the next cycle never runs. *)
Theorem oserror_before_first_save_escapes :
  fetch_and_save pool shutdown_event [cycle_oserror; cycle_with 200 SaveOk]
  = ([Log INFO "Starting polling for camera: 'Pool' (Interval: 30s)";
      HttpGet "https://example.com/Pool.jpg" 15],
     Crashed (Raise UnboundLocalError
                "local variable 'filepath' referenced before assignment")).
Proof. reflexivity. Qed.

(** ** The name of a saved file *)

Lemma is_digit_digit (d : Z) : 0 <= d < 10 -> is_digit (digit d) = true.
Proof.
  intros H.
  assert (d = 0 \/ d = 1 \/ d = 2 \/ d = 3 \/ d = 4 \/ d = 5 \/ d = 6 \/ d = 7
          \/ d = 8 \/ d = 9) as Hd by lia.
  repeat (destruct Hd as [-> | Hd]; [reflexivity |]). subst. reflexivity.
Qed.

Lemma all_digits_app (a b : string) :
  all_digits (a +:+ b) = all_digits a && all_digits b.
Proof.
  induction a as [|c a IH]; [reflexivity |].
  simpl. now rewrite IH, andb_assoc.
Qed.

Lemma pad2_digits (n : Z) : all_digits (pad2 n) = true /\ String.length (pad2 n) = 2%nat.
Proof.
  unfold pad2. simpl.
  rewrite !is_digit_digit by (apply Z.mod_pos_bound; lia). auto.
Qed.

Lemma pad4_digits (n : Z) : all_digits (pad4 n) = true /\ String.length (pad4 n) = 4%nat.
Proof.
  unfold pad4, pad2. simpl.
  rewrite !is_digit_digit by (apply Z.mod_pos_bound; lia). auto.
Qed.

Lemma length_append (a b : string) :
  String.length (a +:+ b) = (String.length a + String.length b)%nat.
Proof. induction a as [|c a IH]; simpl; [reflexivity | now rewrite IH]. Qed.

(** The format of the program, directive by directive. *)
Lemma strftime_program_format (dt : datetime) :
  strftime dt "%Y%m%d_%H%M%S"
  = (pad4 (year dt) +:+ pad2 (month dt) +:+ pad2 (day dt))
      +:+ "_" +:+ (pad2 (hour dt) +:+ pad2 (minute dt) +:+ pad2 (second dt)).
Proof. reflexivity. Qed.

Lemma endswith_slash_app (a b : string) :
  b <> "" -> endswith (a +:+ b) "/" = endswith b "/".
Proof.
  intros Hb. apply eq_true_iff_eq. rewrite !endswith_iff. split.
  - induction a as [|c a IH]; intros [pre H]; simpl in H; [eauto |].
    destruct pre as [|x pre]; simpl in H.
    + injection H as _ H. destruct a; simpl in H; [contradiction | discriminate].
    + injection H as _ H. eauto.
  - intros [pre ->]. exists (a +:+ pre). now rewrite append_assoc.
Qed.

Lemma startswith_app (a b : string) (c : ascii) :
  a <> "" -> startswith (a +:+ b) (String c "") = startswith a (String c "").
Proof.
  destruct a as [|x a]; [contradiction |]. intros _.
  unfold startswith. simpl. destruct (ascii_dec c x); [| reflexivity].
  destruct (a +:+ b), a; reflexivity.
Qed.

(** Where a camera with a plain name saves. *)
Lemma saved_path_plain (cam : camera_config) (e : cycle_env) (r : response) :
  plain_name (name cam) ->
  saved_path cam e r
  = spec_path SAVE_DIR (name cam) (strftime (now e) "%Y%m%d_%H%M%S")
              (get_file_extension r).2.
Proof.
  intros (Hne & Hs & He). unfold saved_path, spec_path.
  set (rest := "_" +:+ _ +:+ _).
  assert (path_join SAVE_DIR (name cam) = SAVE_DIR +:+ "/" +:+ name cam) as ->.
  { unfold path_join. now rewrite Hs. }
  unfold path_join.
  rewrite startswith_app, Hs by exact Hne.
  change (SAVE_DIR +:+ "/" +:+ name cam) with ((SAVE_DIR +:+ "/") +:+ name cam) at 1 2.
  rewrite endswith_slash_app, He by exact Hne.
  replace (String.eqb ((SAVE_DIR +:+ "/") +:+ name cam) "") with false by reflexivity.
  simpl orb. cbv iota. now rewrite !append_assoc.
Qed.

Lemma value_digit (d : Z) : 0 <= d < 10 -> Z.of_N (N_of_ascii (digit d)) - 48 = d.
Proof.
  intros H.
  assert (d = 0 \/ d = 1 \/ d = 2 \/ d = 3 \/ d = 4 \/ d = 5 \/ d = 6 \/ d = 7
          \/ d = 8 \/ d = 9) as Hd by lia.
  repeat (destruct Hd as [-> | Hd]; [reflexivity |]). subst. reflexivity.
Qed.

Lemma number_of_date (y m d : Z) :
  0 <= y <= 9999 -> 0 <= m <= 99 -> 0 <= d <= 99 ->
  number_of (pad4 y +:+ pad2 m +:+ pad2 d) = y * 10000 + m * 100 + d.
Proof.
  intros Hy Hm Hd. unfold number_of, pad4, pad2. simpl.
  rewrite !value_digit by (apply Z.mod_pos_bound; lia).
  Z.div_mod_to_equations. lia.
Qed.

Lemma number_of_time (h m s : Z) :
  0 <= h <= 99 -> 0 <= m <= 99 -> 0 <= s <= 99 ->
  number_of (pad2 h +:+ pad2 m +:+ pad2 s) = h * 10000 + m * 100 + s.
Proof.
  intros Hh Hm Hs. unfold number_of, pad2. simpl.
  rewrite !value_digit by (apply Z.mod_pos_bound; lia).
  Z.div_mod_to_equations. lia.
Qed.

Example timestamp_of_2024_01_02 :
  strftime {| year := 2024; month := 1; day := 2; hour := 3; minute := 4; second := 5 |}
           "%Y%m%d_%H%M%S" = "20240102_030405".
Proof. reflexivity. Qed.

(** C7 as stated fails: the file of a successful fetch is not at the path
    built from the fourteen-digit timestamp; the program's timestamp has
    an underscore between the date and the time. *)
Lemma saved_path_is_not_fourteen_digits :
  attempt_files pool (cycle_with 200 SaveOk) None
  = [("camera_images/Pool/Pool_20240102_030405.jpg", "body")]
  /\ spec_path SAVE_DIR "Pool" (spec_timestamp (now (cycle_with 200 SaveOk))) ".jpg"
     = "camera_images/Pool/Pool_20240102030405.jpg"
  /\ attempt_files pool (cycle_with 200 SaveOk) None
     <> [(spec_path SAVE_DIR "Pool" (spec_timestamp (now (cycle_with 200 SaveOk))) ".jpg",
          "body")]
  /\ all_digits (strftime (now (cycle_with 200 SaveOk)) "%Y%m%d_%H%M%S") = false.
Proof. repeat split; try reflexivity. vm_compute. discriminate. Qed.

(** C7, amended.  A successful fetch of a camera whose name is a plain
    path component writes the body to
    [{SAVE_DIR}/{name}/{name}_{timestamp}{ext}], where the timestamp is
    [YYYYMMDD_HHMMSS]: the eight digits of the date, an underscore, the
    six digits of the time. *)
Theorem saved_file_name (cam : camera_config) (e : cycle_env) (fp : option string)
        (r : response) :
  get_outcome e = inr r ->
  ~ is_4xx_5xx (status_code r) ->
  save e = SaveOk ->
  valid_datetime (now e) ->
  plain_name (name cam) ->
  let timestamp := strftime (now e) "%Y%m%d_%H%M%S" in
  attempt_files cam e fp
  = [(spec_path SAVE_DIR (name cam) timestamp (get_file_extension r).2, content r)]
  /\ exists date time,
       timestamp = date +:+ "_" +:+ time
       /\ String.length date = 8%nat /\ all_digits date = true
       /\ String.length time = 6%nat /\ all_digits time = true
       /\ number_of date = year (now e) * 10000 + month (now e) * 100 + day (now e)
       /\ number_of time = hour (now e) * 10000 + minute (now e) * 100 + second (now e).
Proof.
  intros Hg Hs Hsave (Hy & Hm & Hd & Hh & Hmi & Hse) Hname. cbv zeta. split.
  - rewrite try_except_files, try_suite_files, Hg, Hsave.
    apply (raise_for_status_None (url cam)) in Hs. rewrite Hs.
    now rewrite saved_path_plain.
  - rewrite strftime_program_format.
    eexists _, _. split; [reflexivity |].
    pose proof (pad4_digits (year (now e))) as [Dy Ly].
    pose proof (pad2_digits (month (now e))) as [Dm Lm].
    pose proof (pad2_digits (day (now e))) as [Dd Ld].
    pose proof (pad2_digits (hour (now e))) as [Dh Lh].
    pose proof (pad2_digits (minute (now e))) as [Dmi Lmi].
    pose proof (pad2_digits (second (now e))) as [Ds Ls].
    rewrite !length_append, !all_digits_app.
    rewrite Dy, Dm, Dd, Dh, Dmi, Ds, Ly, Lm, Ld, Lh, Lmi, Ls.
    repeat split.
    + apply number_of_date; lia.
    + apply number_of_time; lia.
Qed.

Lemma saved_file_name_witness :
  attempt_files pool (cycle_with 200 SaveOk) None
  = [(spec_path SAVE_DIR "Pool" "20240102_030405" ".jpg", "body")].
Proof.
  refine (proj1 (saved_file_name pool (cycle_with 200 SaveOk) None _ eq_refl _ eq_refl _ _)).
  - unfold is_4xx_5xx. simpl. lia.
  - unfold valid_datetime. simpl. lia.
  - unfold plain_name. split; [discriminate | split; reflexivity].
Defined.

(** ** Provisioning *)






(** ** The registry *)


Lemma path_join_SAVE_DIR (n : string) :
  (startswith n "/" = true /\ path_join SAVE_DIR n = n)
  \/ (startswith n "/" = false /\ path_join SAVE_DIR n = "camera_images/" +:+ n).
Proof.
  unfold path_join. destruct (startswith n "/"); [left | right]; split; reflexivity.
Qed.






(** ** The exit status *)





Example short_run_exits_0 : exit_status (main CAMERAS short_run) = Some 0.
Proof. reflexivity. Qed.

Example file_in_the_way_exits_1 :
  exit_status (main CAMERAS
                 {| disk := {| entries := {[ "camera_images/Pool" := File ]};
                               creatable := fun _ => true |};
                    ticks := [Signal 15];
                    cycles := fun _ => [last_cycle] |}) = Some 1.
Proof. reflexivity. Qed.


(** ** The timelapse encoder *)

Lemma frames_written_write_frames (w : codec_env) (image_folder : string)
      (total : nat) (files : list string) :
  forall i, frames_written (write_frames w image_folder total i files)
            = omap (decode w image_folder) files.
Proof.
  induction files as [|f rest IH]; intros i; [reflexivity |].
  simpl. unfold frames_written in *. rewrite omap_app, IH. unfold decode at 2.
  destruct (imread w (path_join image_folder f)); reflexivity.
Qed.

Lemma warning_in_write_frames (w : codec_env) (image_folder : string)
      (total : nat) (files : list string) (f : string) :
  f ∈ files -> imread w (path_join image_folder f) = Unreadable ->
  forall i, Print ("Warning: Skipping unreadable image: " +:+ f)
              ∈ write_frames w image_folder total i files.
Proof.
  induction files as [|g rest IH]; intros Hin Hr i; [inversion Hin |].
  simpl. apply elem_of_app. apply elem_of_cons in Hin as [<- | Hin].
  - left. rewrite Hr. left.
  - right. now apply IH.
Qed.

Example shots_timelapse :
  create_timelapse shots "shots" "out.mp4" 24 ".jpg"
  = [Print "--- Timelapse Creation Started ---";
     Print "Image Folder: shots";
     Print "Output File: out.mp4";
     Print "FPS: 24";
     Print "Image Extension: .jpg";
     Print "Found 3 images. Sorting...";
     Print "Video dimensions (WxH): 640x480";
     WriterCreate "out.mp4" "mp4v" 24 (640, 480);
     Print "Writing video frames...";
     WriterWrite (picture "shots/img1.jpg");
     Print (cr +:+ "Progress: 1/3 frames written");
     Print "Warning: Skipping unreadable image: img2.JPG";
     WriterWrite (picture "shots/img10.jpg");
     Print (cr +:+ "Progress: 3/3 frames written");
     WriterRelease;
     Print (nl +:+ "--- Timelapse Creation Finished ---");
     Print "Video saved as: out.mp4"].
Proof. reflexivity. Qed.

(** The runs of [create_timelapse], case by case. *)
Lemma create_timelapse_cases (w : codec_env) (image_folder output_file : string)
      (fps : Z) (image_ext : string) :
  let tr := create_timelapse w image_folder output_file fps image_ext in
  let stopped := writer_created tr = false /\ frames_written tr = [] in
  if isdir w image_folder then
    match select_images w image_folder image_ext with
    | [] => stopped
    | _ :: _ =>
        match sorted_files w image_folder image_ext with
        | [] => stopped
        | first :: _ =>
            match decode w image_folder first with
            | None => stopped
            | Some f =>
                writer_created tr = true
                /\ WriterCreate output_file "mp4v" fps (width f, height f) ∈ tr
                /\ match VideoWriter w output_file "mp4v" fps (width f, height f) with
                   | inr true =>
                       frames_written tr
                       = omap (decode w image_folder) (sorted_files w image_folder image_ext)
                       /\ WriterRelease ∈ tr
                       /\ last tr = Some (Print ("Video saved as: " +:+ output_file))
                       /\ (forall g, g ∈ sorted_files w image_folder image_ext ->
                                     imread w (path_join image_folder g) = Unreadable ->
                                     Print ("Warning: Skipping unreadable image: " +:+ g) ∈ tr)
                   | _ => frames_written tr = []
                   end
            end
        end
    end
  else stopped.
Proof.
  cbv zeta. unfold create_timelapse, sorted_files, decode.
  destruct (isdir w image_folder); [| split; reflexivity]. cbn [negb].
  destruct (select_images w image_folder image_ext) as [|s0 sel]; [split; reflexivity |].
  set (files := natsorted w (s0 :: sel)).
  destruct files as [|first rest] eqn:Hfiles; [split; reflexivity |].
  destruct (imread w (path_join image_folder first)) as [f| |x] eqn:Hfirst;
    [| split; reflexivity | split; reflexivity].
  set (banner := [Print "--- Timelapse Creation Started ---"; _; _; _; _]).
  set (found := [Print ("Found " +:+ _)]).
  set (dims := [Print ("Video dimensions (WxH): " +:+ _)]).
  set (create := [WriterCreate _ _ _ _]).
  assert (forall tl, writer_created (banner ++ found ++ dims ++ create ++ tl) = true) as Hwc
      by reflexivity.
  assert (forall tl, WriterCreate output_file "mp4v" fps (width f, height f)
                       ∈ banner ++ found ++ dims ++ create ++ tl) as Hin.
  { intros tl. do 7 right. left. }
  destruct (VideoWriter w output_file "mp4v" fps (width f, height f)) as [x|[|]].
  - split; [apply Hwc | split; [apply Hin | reflexivity]].
  - split; [apply Hwc | split; [apply Hin |]].
    set (loop := write_frames _ _ _ _ _).
    set (fin := [WriterRelease; _; _]).
    split; [| split; [| split]].
    + change (frames_written (banner ++ found ++ dims ++ create ++ [Print "Writing video frames..."]
                                ++ loop ++ fin))
        with (frames_written (loop ++ fin)).
      unfold frames_written. rewrite omap_app. fold (frames_written loop).
      unfold loop. rewrite frames_written_write_frames. simpl. now rewrite app_nil_r.
    + do 9 right. apply elem_of_app. right. left.
    + rewrite !app_assoc. unfold fin.
      change [WriterRelease; Print (nl +:+ "--- Timelapse Creation Finished ---");
              Print ("Video saved as: " +:+ output_file)]
        with ([WriterRelease; Print (nl +:+ "--- Timelapse Creation Finished ---")]
                ++ [Print ("Video saved as: " +:+ output_file)]).
      rewrite app_assoc. apply last_snoc.
    + intros g Hg Hr. do 9 right. apply elem_of_app. left.
      unfold loop. now apply warning_in_write_frames.
  - split; [apply Hwc | split; [apply Hin | reflexivity]].
Qed.

(** C9.  The encoder returns without creating the video writer (so without
    a video file, and without a frame) whenever the selection is empty or
    the first file in natural-sort order does not decode, and also when
    the folder is not a directory; otherwise it creates the writer for the
    given output path and frame rate, with the size of the first frame. *)
Theorem create_timelapse_needs_first_frame (w : codec_env)
        (image_folder output_file : string) (fps : Z) (image_ext : string) :
  sorted_files w image_folder image_ext ≡ₚ select_images w image_folder image_ext ->
  let tr := create_timelapse w image_folder output_file fps image_ext in
  let no_first_frame :=
    select_images w image_folder image_ext = []
    \/ exists first rest, sorted_files w image_folder image_ext = first :: rest
                          /\ decode w image_folder first = None in
  (isdir w image_folder = false -> writer_created tr = false /\ frames_written tr = [])
  /\ (isdir w image_folder = true -> (writer_created tr = false <-> no_first_frame))
  /\ (writer_created tr = false -> frames_written tr = [])
  /\ (isdir w image_folder = true -> ~ no_first_frame ->
      exists first rest f,
        sorted_files w image_folder image_ext = first :: rest
        /\ decode w image_folder first = Some f
        /\ WriterCreate output_file "mp4v" fps (width f, height f) ∈ tr).
Proof.
  intros Hperm. cbv zeta.
  pose proof (create_timelapse_cases w image_folder output_file fps image_ext) as H.
  cbv zeta in H.
  destruct (isdir w image_folder).
  2: { destruct H as [H1 H2]. repeat split; auto; discriminate. }
  destruct (select_images w image_folder image_ext) as [|s0 sel] eqn:Hsel.
  { destruct H as [H1 H2].
    split; [discriminate |]. split; [intros _; split; auto |]. split; [auto |].
    intros _ Hn. exfalso. apply Hn. now left. }
  destruct (sorted_files w image_folder image_ext) as [|first rest] eqn:Hsorted.
  { apply Permutation_nil_l in Hperm. discriminate. }
  destruct (decode w image_folder first) as [f|] eqn:Hdec.
  - destruct H as (Hwc & Hin & _). rewrite Hwc.
    split; [discriminate |]. split; [| split; [discriminate |]].
    + intros _. split; [discriminate |].
      intros [Hempty | (first' & rest' & [= <- <-] & Hd)]; [discriminate | congruence].
    + intros _ _. exists first, rest, f. auto.
  - destruct H as [H1 H2].
    split; [discriminate |]. split; [| split; [auto |]].
    + intros _. split; [| auto]. intros _. right. exists first, rest. auto.
    + intros _ Hn. exfalso. apply Hn. right. exists first, rest. auto.
Qed.

Lemma shots_selection :
  select_images shots "shots" ".jpg" = ["img10.jpg"; "img2.JPG"; "img1.jpg"].
Proof. reflexivity. Qed.

Lemma shots_sorted :
  sorted_files shots "shots" ".jpg" ≡ₚ select_images shots "shots" ".jpg".
Proof.
  rewrite shots_selection. unfold sorted_files. simpl.
  change ["img1.jpg"; "img2.JPG"; "img10.jpg"]
    with (["img1.jpg"; "img2.JPG"] ++ ["img10.jpg"]).
  rewrite <- Permutation_cons_append. apply perm_skip. apply perm_swap.
Qed.

Lemma create_timelapse_needs_first_frame_witness :
  exists first rest f,
    sorted_files shots "shots" ".jpg" = first :: rest
    /\ decode shots "shots" first = Some f
    /\ WriterCreate "out.mp4" "mp4v" 24 (width f, height f)
         ∈ create_timelapse shots "shots" "out.mp4" 24 ".jpg".
Proof.
  refine (proj2 (proj2 (proj2
            (create_timelapse_needs_first_frame shots "shots" "out.mp4" 24 ".jpg"
                                                shots_sorted))) eq_refl _).
  intros [H | (first & rest & [= <- <-] & H)]; discriminate.
Defined.

(** ** The frames of the video *)

(** The selection is the list of regular files whose name ends with the
    extension, letter case apart. *)
Lemma select_images_iff (w : codec_env) (image_folder image_ext f : string) :
  f ∈ select_images w image_folder image_ext
  <-> f ∈ listdir w image_folder
      /\ isfile w (path_join image_folder f) = true
      /\ ci_suffix image_ext f.
Proof.
  unfold select_images. rewrite list_elem_of_In, filter_In, andb_true_iff.
  rewrite <- list_elem_of_In, endswith_lower_iff. tauto.
Qed.

(** C10.  A file is selected exactly when it is listed in the folder, is a
    regular file and its name ends with the extension, letter case apart.
    When the first file in natural-sort order decodes and the writer
    opens, the frames written are exactly the frames of the selected files
    that decode, in natural-sort order; an unreadable file is skipped with
    a warning, and the writer is still released and the video reported. *)
Theorem timelapse_frames (w : codec_env) (image_folder output_file : string)
        (fps : Z) (image_ext : string) (first : string) (rest : list string) (f0 : frame) :
  sorted_files w image_folder image_ext ≡ₚ select_images w image_folder image_ext ->
  isdir w image_folder = true ->
  sorted_files w image_folder image_ext = first :: rest ->
  decode w image_folder first = Some f0 ->
  VideoWriter w output_file "mp4v" fps (width f0, height f0) = inr true ->
  let tr := create_timelapse w image_folder output_file fps image_ext in
  (forall f, f ∈ select_images w image_folder image_ext
             <-> f ∈ listdir w image_folder
                 /\ isfile w (path_join image_folder f) = true
                 /\ ci_suffix image_ext f)
  /\ frames_written tr
     = omap (decode w image_folder) (sorted_files w image_folder image_ext)
  /\ (forall fr, fr ∈ frames_written tr
                 <-> exists f, f ∈ select_images w image_folder image_ext
                               /\ decode w image_folder f = Some fr)
  /\ (forall g, g ∈ sorted_files w image_folder image_ext ->
                imread w (path_join image_folder g) = Unreadable ->
                Print ("Warning: Skipping unreadable image: " +:+ g) ∈ tr)
  /\ WriterRelease ∈ tr
  /\ last tr = Some (Print ("Video saved as: " +:+ output_file)).
Proof.
  intros Hperm Hdir Hsorted Hdec Hopen. cbv zeta.
  split; [intros f; apply select_images_iff |].
  pose proof (create_timelapse_cases w image_folder output_file fps image_ext) as H.
  cbv zeta in H. rewrite Hdir in H.
  destruct (select_images w image_folder image_ext) as [|s0 sel] eqn:Hsel.
  { rewrite Hsorted in Hperm. apply Permutation_nil_r in Hperm. discriminate. }
  rewrite Hsorted, Hdec, Hopen in H. rewrite Hsorted.
  destruct H as (_ & _ & Hfw & Hrel & Hlast & Hwarn).
  split; [exact Hfw |]. split; [| auto].
  intros fr. rewrite Hfw, list_elem_of_omap. rewrite <- Hsorted.
  split; intros (f & Hf & Hd); exists f; (split; [| exact Hd]).
  - now rewrite <- Hperm.
  - now rewrite Hperm.
Qed.

Lemma timelapse_frames_witness :
  frames_written (create_timelapse shots "shots" "out.mp4" 24 ".jpg")
  = omap (decode shots "shots") (sorted_files shots "shots" ".jpg").
Proof.
  exact (proj1 (proj2
           (timelapse_frames shots "shots" "out.mp4" 24 ".jpg"
              "img1.jpg" ["img2.JPG"; "img10.jpg"] (picture "shots/img1.jpg")
              shots_sorted eq_refl eq_refl eq_refl eq_refl))).
Defined.

(** * Further properties *)

(** ** A loop that cannot crash *)

Lemma cycle_failure_is_logged_witness :
  exists m, try_except pool (cycle_with 500 SaveOk) None
            = ([HttpGet "https://example.com/Pool.jpg" 15]
                 ++ [Log ERROR ("[" +:+ name pool +:+ "] " +:+ m)], None, None).
Proof.
  refine (cycle_failure_is_logged pool (cycle_with 500 SaveOk) None None _
            (Raise HTTPError "500 Server Error:  for url: https://example.com/Pool.jpg")
            eq_refl _).
  right. discriminate.
Defined.





(** A response that is not an error status leaves [filepath] at the path
    of that cycle. *)
Lemma try_except_binds_path (cam : camera_config) (e : cycle_env) (fp : option string)
      (r : response) :
  get_outcome e = inr r -> ~ is_4xx_5xx (status_code r) ->
  (try_except cam e fp).2 = None
  /\ (try_except cam e fp).1.2 = Some (saved_path cam e r).
Proof.
  intros Hg Hs. apply (raise_for_status_None (url cam)) in Hs.
  unfold try_except, try_suite, saved_path. rewrite Hg, Hs.
  destruct (get_file_extension r) as [ev_ext ext].
  destruct (save e); cbn [fst snd]; auto.
Qed.

(** X13.  An [OSError] that [requests.get] raises is blamed on the file of
    an earlier cycle: when a cycle gets a response that is not an error
    status and, the flag staying clear, the next cycle's request raises a
    bare [OSError], the loop logs "Error saving image to" with the path of
    the earlier cycle, although nothing was being saved, and goes on to
    its wait. *)
Theorem oserror_blamed_on_last_save (cam : camera_config) (fp : option string)
        (e1 e2 : cycle_env) (rest : list cycle_env) (r1 : response) (x : exn) :
  get_outcome e1 = inr r1 ->
  ~ is_4xx_5xx (status_code r1) ->
  signal_in_cycle e1 || signal_in_wait e1 = false ->
  get_outcome e2 = inl x ->
  exn_cls x = OSError ->
  let r := poll cam false fp (e1 :: e2 :: rest) in
  Log ERROR ("[" +:+ name cam +:+ "] Error saving image to " +:+ saved_path cam e1 r1
                 +:+ ": " +:+ exn_msg x) ∈ r.1
  /\ (2 <= List.length (waits r.1))%nat.
Proof.
  intros Hg1 Hs1 Hsig Hg2 Hcls. cbv zeta. rewrite poll_cons.
  destruct (try_except_binds_path cam e1 fp r1 Hg1 Hs1) as [Hr Hp].
  pose proof (try_except_events cam e1 fp) as [Hw1 _].
  destruct (try_except cam e1 fp) as [[evs1 fp1] raised]. cbn [fst snd] in *. subst.
  cbv zeta. rewrite Hsig, poll_cons.
  assert (try_except cam e2 (Some (saved_path cam e1 r1))
          = (logging_log DEBUG ("[" +:+ name cam +:+ "] Fetching image from " +:+ url cam)
               ++ [HttpGet (url cam) REQUEST_TIMEOUT]
               ++ [Log ERROR ("[" +:+ name cam +:+ "] Error saving image to "
                                  +:+ saved_path cam e1 r1 +:+ ": " +:+ exn_msg x)],
             Some (saved_path cam e1 r1), None)) as Htry.
  { unfold try_except, try_suite. rewrite Hg2.
    unfold except_clauses, is_Timeout, is_RequestException, is_OSError. rewrite Hcls.
    now rewrite <- app_assoc. }
  pose proof (try_except_events cam e2 (Some (saved_path cam e1 r1))) as [Hw2 _].
  rewrite Htry in Hw2 |- *. cbn [fst snd] in Hw2. cbv zeta.
  destruct (poll cam _ (Some (saved_path cam e1 r1)) rest) as [tl out]. cbn [fst].
  split.
  - apply elem_of_app. right. apply elem_of_app. right. apply elem_of_app. right.
    apply elem_of_app. left. apply elem_of_app. right. apply elem_of_app. right. left.
  - rewrite waits_cycle by exact Hw1. rewrite waits_cycle by exact Hw2. simpl. lia.
Qed.

Lemma oserror_blamed_on_last_save_witness :
  Log ERROR "[Pool] Error saving image to camera_images/Pool/Pool_20240102_030405.jpg: Could not find a suitable TLS CA certificate bundle, invalid path: /etc/ssl/ca.pem"
    ∈ (poll pool false None [cycle_with 200 SaveOk; cycle_oserror]).1.
Proof.
  refine (proj1 (oserror_blamed_on_last_save pool None (cycle_with 200 SaveOk) cycle_oserror []
                   _ _ eq_refl _ eq_refl eq_refl eq_refl)).
  unfold is_4xx_5xx. simpl. lia.
Defined.

(** ** The cadence of a loop *)

Lemma waited_out_tail (cam : camera_config) (e : cycle_env) (rest : list cycle_env) :
  waited_out cam (e :: rest) -> waited_out cam rest.
Proof. intros [_ H]. exact H. Qed.

Lemma waited_out_drop (cam : camera_config) (i : nat) :
  forall envs, waited_out cam envs -> waited_out cam (drop i envs).
Proof.
  induction i as [|i IH]; intros envs H; [now rewrite drop_0 |].
  destruct envs as [|e rest]; [exact I |]. simpl. apply IH. now apply waited_out_tail in H.
Qed.

Lemma waited_out_from_head (cam : camera_config) (k : nat) :
  forall envs e0 ek,
    waited_out cam envs -> envs !! 0%nat = Some e0 -> envs !! k = Some ek ->
    monotonic_before e0 + Z.of_nat k * interval cam <= monotonic_before ek.
Proof.
  induction k as [|k IH]; intros envs e0 ek Hw H0 Hk.
  - rewrite H0 in Hk. injection Hk as <-. lia.
  - destruct envs as [|e rest]; [discriminate |].
    simpl in H0, Hk. injection H0 as ->.
    destruct rest as [|e1 rest']; [discriminate |].
    destruct Hw as [Hstep Hw].
    specialize (IH (e1 :: rest') e1 ek Hw eq_refl Hk).
    unfold sleep_duration, deadline in Hstep. lia.
Qed.

(** X4.  When every wait lasts at least as long as asked, the camera is
    fetched at most once per interval: the start of a fetch and the start
    of the k-th fetch after it are at least k intervals apart, however
    long the fetches in between took. *)
Theorem fetches_at_least_interval_apart (cam : camera_config) (envs : list cycle_env)
        (i k : nat) (ei ek : cycle_env) :
  waited_out cam envs ->
  envs !! i = Some ei ->
  envs !! (i + k)%nat = Some ek ->
  monotonic_before ei + Z.of_nat k * interval cam <= monotonic_before ek.
Proof.
  intros Hw Hi Hk.
  apply (waited_out_from_head cam k (drop i envs)).
  - now apply waited_out_drop.
  - rewrite lookup_drop. now rewrite Nat.add_0_r.
  - now rewrite lookup_drop.
Qed.

Lemma fetches_at_least_interval_apart_witness :
  1000 + Z.of_nat 2 * interval pool <= 1070.
Proof.
  refine (fetches_at_least_interval_apart pool three_cycles 0 2
            (cycle_at 1000 1005) (cycle_at 1070 1072) _ eq_refl eq_refl).
  unfold three_cycles, waited_out, sleep_duration, deadline. simpl. lia.
Defined.

Lemma on_schedule_drop (cam : camera_config) (i : nat) :
  forall envs, on_schedule cam envs -> on_schedule cam (drop i envs).
Proof.
  induction i as [|i IH]; intros envs H; [now rewrite drop_0 |].
  destruct envs as [|e rest]; [exact I |]. simpl. apply IH. now destruct H as (_ & _ & H).
Qed.

Lemma on_schedule_from_head (cam : camera_config) (k : nat) :
  forall envs e0 ek,
    on_schedule cam envs -> envs !! 0%nat = Some e0 -> envs !! k = Some ek ->
    monotonic_before ek = monotonic_before e0 + Z.of_nat k * interval cam.
Proof.
  induction k as [|k IH]; intros envs e0 ek Hw H0 Hk.
  - rewrite H0 in Hk. injection Hk as <-. lia.
  - destruct envs as [|e rest]; [discriminate |].
    simpl in H0, Hk. injection H0 as ->.
    destruct rest as [|e1 rest']; [discriminate |].
    destruct Hw as (Hdue & Hstep & Hw).
    specialize (IH (e1 :: rest') e1 ek Hw eq_refl Hk).
    unfold sleep_duration, deadline in *. lia.
Qed.

(** X5.  The deadline keeps the cadence free of drift: when every fetch is
    over by its deadline and every wait ends on time, the k-th fetch after
    a given one starts exactly k intervals later, whatever the fetches
    took. *)
Theorem fetches_do_not_drift (cam : camera_config) (envs : list cycle_env)
        (i k : nat) (ei ek : cycle_env) :
  on_schedule cam envs ->
  envs !! i = Some ei ->
  envs !! (i + k)%nat = Some ek ->
  monotonic_before ek = monotonic_before ei + Z.of_nat k * interval cam.
Proof.
  intros Hw Hi Hk.
  apply (on_schedule_from_head cam k (drop i envs)).
  - now apply on_schedule_drop.
  - rewrite lookup_drop. now rewrite Nat.add_0_r.
  - now rewrite lookup_drop.
Qed.

Lemma fetches_do_not_drift_witness :
  1060 = 1000 + Z.of_nat 2 * interval pool.
Proof.
  refine (fetches_do_not_drift pool punctual_cycles 0 2
            (cycle_at 1000 1005) (cycle_at 1060 1072) _ eq_refl eq_refl).
  unfold punctual_cycles, on_schedule, sleep_duration, deadline. simpl. lia.
Defined.

(** ** Where the files go *)

Lemma append_inj_l (a x y : string) : a +:+ x = a +:+ y -> x = y.
Proof. induction a as [|c a IH]; simpl; intros H; [exact H | injection H; auto]. Qed.

Lemma append_inj_length (a b x y : string) :
  a +:+ x = b +:+ y -> String.length a = String.length b -> a = b /\ x = y.
Proof.
  revert b; induction a as [|c a IH]; intros [|d b] H Hl; simpl in *; try discriminate.
  - auto.
  - injection H as -> H. injection Hl as Hl. destruct (IH b H Hl) as [-> ->]. auto.
Qed.

Lemma extension_length (r : response) : String.length (get_file_extension r).2 = 4%nat.
Proof. unfold get_file_extension. repeat case_match; reflexivity. Qed.

Lemma timestamp_length (dt : datetime) :
  String.length (strftime dt "%Y%m%d_%H%M%S") = 15%nat.
Proof. reflexivity. Qed.

(** The timestamp determines the second it was taken in. *)
Lemma timestamp_inj (dt dt' : datetime) :
  valid_datetime dt -> valid_datetime dt' ->
  strftime dt "%Y%m%d_%H%M%S" = strftime dt' "%Y%m%d_%H%M%S" -> dt = dt'.
Proof.
  intros (Hy & Hm & Hd & Hh & Hmi & Hs) (Hy' & Hm' & Hd' & Hh' & Hmi' & Hs') H.
  rewrite !strftime_program_format in H.
  apply append_inj_length in H as [Hdate Htime]; [| reflexivity].
  apply (append_inj_l "_") in Htime.
  apply (f_equal number_of) in Hdate, Htime.
  rewrite !number_of_date in Hdate by lia. rewrite !number_of_time in Htime by lia.
  destruct dt, dt'. simpl in *. f_equal; lia.
Qed.

(** Every file in the trace of a loop is the body of a response of one of
    its cycles, at the path that cycle computes. *)
Lemma poll_files (cam : camera_config) (envs : list cycle_env) :
  forall (flag : bool) (fp : option string) (p d : string),
    (p, d) ∈ files_written (poll cam flag fp envs).1 ->
    exists e r, e ∈ envs /\ get_outcome e = inr r
                /\ p = saved_path cam e r /\ d = content r.
Proof.
  induction envs as [|e rest IH]; intros [|] fp p d;
    rewrite ?poll_set, ?poll_nil; cbn [fst]; try (intros H; now inversion H).
  rewrite poll_cons.
  pose proof (try_except_files cam e fp) as Hf. rewrite try_suite_files in Hf.
  unfold attempt_files in Hf.
  destruct (try_except cam e fp) as [[evs fp'] raised]. cbn [fst snd] in Hf.
  assert ((p, d) ∈ files_written evs ->
          exists e0 r, e0 ∈ e :: rest /\ get_outcome e0 = inr r
                       /\ p = saved_path cam e0 r /\ d = content r) as Hhere.
  { rewrite Hf. destruct (get_outcome e) as [x|r] eqn:Hg; [intros H; inversion H |].
    destruct (raise_for_status (url cam) r); [intros H; inversion H |].
    destruct (save e); try (intros H; now inversion H).
    intros H. apply list_elem_of_singleton in H. injection H as -> ->.
    exists e, r. repeat split; auto. left. }
  destruct raised as [x|]; cbn [fst]; [exact Hhere |].
  cbv zeta. specialize (IH (signal_in_cycle e || signal_in_wait e) fp' p d).
  destruct (poll cam _ fp' rest) as [tl out]. cbn [fst] in *.
  unfold files_written in *. rewrite !omap_app. rewrite !elem_of_app.
  intros [H | [H | [H | H]]].
  - now apply Hhere.
  - exfalso. revert H. unfold logging_log. case_match; intros Hlog; inversion Hlog.
  - inversion H.
  - destruct (IH H) as (e0 & r & Hin & Hrest). exists e0, r. split; [now right | exact Hrest].
Qed.


Lemma startswith_self_app (n x : string) : startswith (n +:+ x) n = true.
Proof. unfold startswith. apply prefix_iff. eauto. Qed.



(** X7.  Two saves of one camera go to the same file exactly when they
    happen in the same wall-clock second and get the same extension: the
    later one then overwrites the earlier. *)
Theorem same_second_same_file (cam : camera_config) (e e' : cycle_env) (r r' : response) :
  plain_name (name cam) ->
  valid_datetime (now e) ->
  valid_datetime (now e') ->
  saved_path cam e r = saved_path cam e' r'
  <-> now e = now e' /\ (get_file_extension r).2 = (get_file_extension r').2.
Proof.
  intros Hn Hv Hv'. rewrite !saved_path_plain by exact Hn. unfold spec_path. split.
  - intros H.
    do 6 apply append_inj_l in H.
    apply append_inj_length in H as [Hts Hext]; [| reflexivity].
    split; [now apply timestamp_inj | exact Hext].
  - intros [-> ->]. reflexivity.
Qed.

Lemma same_second_same_file_witness :
  saved_path pool (cycle_with 200 SaveOk) {| status_code := 200; reason := "OK";
                                             content_type := None; content := "a" |}
  = saved_path pool last_cycle {| status_code := 200; reason := "OK";
                                  content_type := Some "image/jpeg"; content := "b" |}.
Proof.
  refine (proj2 (same_second_same_file pool (cycle_with 200 SaveOk) last_cycle _ _ _ _ _) _).
  - unfold plain_name. split; [discriminate | split; reflexivity].
  - unfold valid_datetime. simpl. lia.
  - unfold valid_datetime. simpl. lia.
  - split; reflexivity.
Defined.

(** The path of a save spells the camera's name right after SAVE_DIR. *)
Lemma saved_path_name (c1 c2 : camera_config) (e1 e2 : cycle_env) (r1 r2 : response) :
  plain_name (name c1) -> plain_name (name c2) ->
  saved_path c1 e1 r1 = saved_path c2 e2 r2 -> name c1 = name c2.
Proof.
  intros H1 H2. rewrite !saved_path_plain by assumption. unfold spec_path. intros H.
  do 2 apply append_inj_l in H.
  assert (String.length (name c1) = String.length (name c2)) as Hl.
  { apply (f_equal String.length) in H. rewrite !length_append in H.
    rewrite !timestamp_length, !extension_length in H. simpl in H. lia. }
  now apply append_inj_length in H as [Hn _].
Qed.

(** X8.  The loops of two cameras with different names never write the
    same file, whatever their cycles meet. *)
Theorem loops_write_apart (c1 c2 : camera_config) (flag1 flag2 : bool)
        (fp1 fp2 : option string) (envs1 envs2 : list cycle_env) (p d1 d2 : string) :
  plain_name (name c1) ->
  plain_name (name c2) ->
  name c1 <> name c2 ->
  (p, d1) ∈ files_written (poll c1 flag1 fp1 envs1).1 ->
  (p, d2) ∉ files_written (poll c2 flag2 fp2 envs2).1.
Proof.
  intros H1 H2 Hne Hin1 Hin2.
  apply poll_files in Hin1 as (e1 & r1 & _ & _ & -> & _).
  apply poll_files in Hin2 as (e2 & r2 & _ & _ & Heq & _).
  apply Hne. now apply (saved_path_name c1 c2 e1 e2 r1 r2).
Qed.

Lemma loops_write_apart_witness :
  ("camera_images/Pool/Pool_20240102_030405.jpg", "body")
    ∉ files_written (poll front_door false None [cycle_with 200 SaveOk]).1.
Proof.
  refine (loops_write_apart pool front_door false false None None
            [cycle_with 200 SaveOk] [cycle_with 200 SaveOk] _ "body" "body" _ _ _ _).
  - unfold plain_name. split; [discriminate | split; reflexivity].
  - unfold plain_name. split; [discriminate | split; reflexivity].
  - discriminate.
  - left.
Defined.

(** X9.  A loop writes only inside its camera's directory: every file in
    its trace is at [{SAVE_DIR}/{name}/{name}_...] and holds the body of a
    response fetched in one of its cycles; it never writes more files than
    it made requests. *)
Theorem loop_writes_in_its_directory (cam : camera_config) (flag : bool)
        (fp : option string) (envs : list cycle_env) :
  plain_name (name cam) ->
  let tr := (poll cam flag fp envs).1 in
  (forall p d, (p, d) ∈ files_written tr ->
               startswith p (cam_dir_of cam +:+ "/" +:+ name cam +:+ "_") = true
               /\ exists e r, e ∈ envs /\ get_outcome e = inr r /\ d = content r)
  /\ (List.length (files_written tr) <= List.length (fetches tr))%nat.
Proof.
  intros Hn. cbv zeta. split.
  - intros p d Hin. apply poll_files in Hin as (e & r & He & Hg & -> & ->). split.
    + rewrite saved_path_plain by exact Hn. unfold spec_path, cam_dir_of.
      destruct (path_join_SAVE_DIR (name cam)) as [[Hs _] | [_ ->]].
      * destruct Hn as (_ & Hs' & _). congruence.
      * change ("camera_images/" +:+ name cam) with (SAVE_DIR +:+ "/" +:+ name cam).
        rewrite !append_assoc.
        replace (SAVE_DIR +:+ "/" +:+ name cam +:+ "/" +:+ name cam +:+ "_"
                   +:+ strftime (now e) "%Y%m%d_%H%M%S" +:+ (get_file_extension r).2)
          with ((SAVE_DIR +:+ "/" +:+ name cam +:+ "/" +:+ name cam +:+ "_")
                  +:+ strftime (now e) "%Y%m%d_%H%M%S" +:+ (get_file_extension r).2)
          by now rewrite !append_assoc.
        apply startswith_self_app.
    + eauto.
  - revert flag fp. induction envs as [|e rest IH]; intros [|] fp;
      rewrite ?poll_set, ?poll_nil; cbn [fst]; try (simpl; lia).
    rewrite poll_cons.
    pose proof (try_except_events cam e fp) as [_ Hf].
    assert (List.length (attempt_files cam e fp) <= 1)%nat as Hle.
    { rewrite try_except_files, try_suite_files. repeat case_match; simpl; lia. }
    unfold attempt_files in Hle.
    destruct (try_except cam e fp) as [[evs fp'] [x|]]; cbn [fst snd] in *.
    + rewrite Hf. simpl. exact Hle.
    + specialize (IH (signal_in_cycle e || signal_in_wait e) fp').
      destruct (poll cam _ fp' rest) as [tl out]. cbn [fst] in *.
      rewrite (fetches_cycle _ _ _ _ (url cam)) by exact Hf.
      unfold files_written in *. rewrite !omap_app, !length_app.
      assert (omap (fun ev => match ev with FileWrite p d => Some (p, d) | _ => None end)
                   (logging_log DEBUG
                      ("[" +:+ name cam +:+ "] Sleeping for "
                           +:+ pretty (sleep_duration (deadline cam e) e)
                           +:+ ".00 seconds...")) = []) as -> by reflexivity.
      simpl. lia.
Qed.

Lemma loop_writes_in_its_directory_witness :
  (List.length (files_written (poll pool false None [cycle_with 200 SaveOk]).1)
   <= List.length (fetches (poll pool false None [cycle_with 200 SaveOk]).1))%nat.
Proof.
  refine (proj2 (loop_writes_in_its_directory pool false None [cycle_with 200 SaveOk] _)).
  unfold plain_name. split; [discriminate | split; reflexivity].
Defined.

(** ** Provisioning that fails half-way *)










(** ** The video writer *)

Lemma writer_ops_app (a b : list tl_event) : writer_ops (a ++ b) = writer_ops a ++ writer_ops b.
Proof. unfold writer_ops. apply List.filter_app. Qed.

Lemma writer_ops_write_frames (w : codec_env) (image_folder : string) (total : nat)
      (files : list string) :
  forall i, writer_ops (write_frames w image_folder total i files)
            = map WriterWrite (omap (decode w image_folder) files).
Proof.
  induction files as [|f rest IH]; intros i; [reflexivity |].
  simpl. rewrite writer_ops_app, IH. unfold decode at 2.
  destruct (imread w (path_join image_folder f)); reflexivity.
Qed.

(** X11.  The encoder uses the writer in one of three ways only: not at
    all; created but not opened, then left alone (no frame, no release);
    or created, opened, fed the frames and released exactly once at the
    end.  No frame is ever written before the writer is created or after
    it is released. *)
Theorem writer_protocol (w : codec_env) (image_folder output_file : string)
        (fps : Z) (image_ext : string) :
  let ops := writer_ops (create_timelapse w image_folder output_file fps image_ext) in
  ops = []
  \/ (exists size,
        ops = [WriterCreate output_file "mp4v" fps size]
        /\ VideoWriter w output_file "mp4v" fps size <> inr true)
  \/ (exists size,
        ops = [WriterCreate output_file "mp4v" fps size]
                ++ map WriterWrite
                     (omap (decode w image_folder) (sorted_files w image_folder image_ext))
                ++ [WriterRelease]
        /\ VideoWriter w output_file "mp4v" fps size = inr true).
Proof.
  cbv zeta. unfold create_timelapse, sorted_files.
  destruct (isdir w image_folder); [| left; reflexivity]. cbn [negb].
  destruct (select_images w image_folder image_ext) as [|s0 sel]; [left; reflexivity |].
  destruct (natsorted w (s0 :: sel)) as [|first rest] eqn:Hfiles; [left; reflexivity |].
  destruct (imread w (path_join image_folder first)) as [f| |x];
    [| left; reflexivity | left; reflexivity].
  set (banner := [Print "--- Timelapse Creation Started ---"; _; _; _; _]).
  set (found := [Print ("Found " +:+ _)]).
  set (dims := [Print ("Video dimensions (WxH): " +:+ _)]).
  set (create := [WriterCreate _ _ _ _]).
  assert (forall tl, writer_ops (banner ++ found ++ dims ++ create ++ tl)
                     = create ++ writer_ops tl) as Hops by reflexivity.
  right. destruct (VideoWriter w output_file "mp4v" fps (width f, height f)) as [x|[|]] eqn:Hw.
  - left. exists (width f, height f). rewrite Hw. split; [reflexivity | discriminate].
  - right. exists (width f, height f). rewrite Hw. split; [| reflexivity].
    rewrite Hops. f_equal.
    change (writer_ops ([Print "Writing video frames..."]
                          ++ write_frames w image_folder (List.length (first :: rest)) 0
                               (first :: rest)
                          ++ [WriterRelease;
                              Print (nl +:+ "--- Timelapse Creation Finished ---");
                              Print ("Video saved as: " +:+ output_file)]))
      with (writer_ops (write_frames w image_folder (List.length (first :: rest)) 0
                          (first :: rest)
                          ++ [WriterRelease;
                              Print (nl +:+ "--- Timelapse Creation Finished ---");
                              Print ("Video saved as: " +:+ output_file)])).
    rewrite writer_ops_app, writer_ops_write_frames. reflexivity.
  - left. exists (width f, height f). rewrite Hw. split; [reflexivity | discriminate].
Qed.

Lemma progress_in_write_frames (w : codec_env) (image_folder : string) (total : nat)
      (f : string) (fr : frame) (post : list string) :
  decode w image_folder f = Some fr ->
  forall (pre : list string) (i : nat),
    progress_line (S (i + List.length pre)) total
      ∈ write_frames w image_folder total i (pre ++ f :: post).
Proof.
  intros Hd. induction pre as [|g pre IH]; intros i.
  - simpl. rewrite Nat.add_0_r. unfold decode in Hd.
    destruct (imread w (path_join image_folder f)); try discriminate.
    apply elem_of_app. left. right. left.
  - simpl. apply elem_of_app. right.
    replace (S (i + S (List.length pre))) with (S (S i + List.length pre)) by lia.
    apply IH.
Qed.

(** When the run gets to the frames, the trace is the loop between a
    prologue and an epilogue. *)
Lemma create_timelapse_writing (w : codec_env) (image_folder output_file : string)
      (fps : Z) (image_ext : string) (first : string) (rest : list string) (f0 : frame) :
  isdir w image_folder = true ->
  select_images w image_folder image_ext <> [] ->
  sorted_files w image_folder image_ext = first :: rest ->
  decode w image_folder first = Some f0 ->
  VideoWriter w output_file "mp4v" fps (width f0, height f0) = inr true ->
  exists before after,
    create_timelapse w image_folder output_file fps image_ext
    = before
        ++ write_frames w image_folder (List.length (first :: rest)) 0 (first :: rest)
        ++ after.
Proof.
  unfold create_timelapse, sorted_files, decode. intros -> Hsel Hsorted Hdec Hw. cbn [negb].
  destruct (select_images w image_folder image_ext) as [|s0 sel]; [contradiction |].
  rewrite Hsorted.
  destruct (imread w (path_join image_folder first)) as [f| |x]; try discriminate.
  injection Hdec as ->. rewrite Hw.
  set (banner := [Print "--- Timelapse Creation Started ---"; _; _; _; _]).
  set (found := [Print ("Found " +:+ _)]).
  set (dims := [Print ("Video dimensions (WxH): " +:+ _)]).
  set (create := [WriterCreate _ _ _ _]).
  exists (banner ++ found ++ dims ++ create ++ [Print "Writing video frames..."]).
  eexists. rewrite <- !app_assoc. reflexivity.
Qed.

(** X12.  The progress line counts positions, not frames: after the file
    at position [pos] of the sorted selection is written the encoder
    prints "Progress: pos/total frames written" with [total] the number of
    selected files, although the frames written by then are only those of
    the files before it that decoded, plus one. *)
Theorem progress_counts_positions (w : codec_env) (image_folder output_file : string)
        (fps : Z) (image_ext : string) (first : string) (rest : list string) (f0 : frame)
        (pre post : list string) (f : string) (fr : frame) :
  isdir w image_folder = true ->
  select_images w image_folder image_ext <> [] ->
  sorted_files w image_folder image_ext = first :: rest ->
  decode w image_folder first = Some f0 ->
  VideoWriter w output_file "mp4v" fps (width f0, height f0) = inr true ->
  first :: rest = pre ++ f :: post ->
  decode w image_folder f = Some fr ->
  let tr := create_timelapse w image_folder output_file fps image_ext in
  progress_line (S (List.length pre)) (List.length (first :: rest)) ∈ tr
  /\ frames_written tr
     = omap (decode w image_folder) pre ++ fr :: omap (decode w image_folder) post.
Proof.
  intros Hdir Hsel Hsorted Hdec Hw Hsplit Hf. cbv zeta.
  destruct (create_timelapse_writing w image_folder output_file fps image_ext
              first rest f0 Hdir Hsel Hsorted Hdec Hw) as (before & after & Htr).
  split.
  - rewrite Htr. apply elem_of_app. right. apply elem_of_app. left.
    rewrite Hsplit.
    apply (progress_in_write_frames w image_folder _ f fr post Hf pre 0).
  - pose proof (create_timelapse_cases w image_folder output_file fps image_ext) as H.
    cbv zeta in H. rewrite Hdir in H.
    destruct (select_images w image_folder image_ext) as [|s0 sel]; [contradiction |].
    rewrite Hsorted, Hdec, Hw in H. destruct H as (_ & _ & -> & _).
    rewrite Hsplit, omap_app. simpl. now rewrite Hf.
Qed.

Lemma progress_counts_positions_witness :
  progress_line 3 3 ∈ create_timelapse shots "shots" "out.mp4" 24 ".jpg"
  /\ frames_written (create_timelapse shots "shots" "out.mp4" 24 ".jpg")
     = [picture "shots/img1.jpg"; picture "shots/img10.jpg"].
Proof.
  refine (progress_counts_positions shots "shots" "out.mp4" 24 ".jpg"
            "img1.jpg" ["img2.JPG"; "img10.jpg"] (picture "shots/img1.jpg")
            ["img1.jpg"; "img2.JPG"] [] "img10.jpg" (picture "shots/img10.jpg")
            eq_refl _ eq_refl eq_refl eq_refl eq_refl eq_refl).
  discriminate.
Defined.
